(** * py_ncdiff: a shallow embedding of [netCDF_comp_class] (src/py_ncdiff.py)

    The datasets are given already opened (the [xr.open_dataset] calls of
    [__init__] are the loader, outside the comparison logic).  Floating
    point values are modelled as [option Q]: [None] is a NaN (the only
    invalid value the files produce here), [Some q] a finite value.  The
    logger is modelled as a list of structured messages, one constructor
    per format string of the source. *)

From Stdlib Require Import QArith Qminmax Qabs Lqa.
From stdpp Require Import base list strings pretty sets.

Open Scope string_scope.
Open Scope list_scope.

(** ** Data model *)

(** A netCDF attribute value, as [netCDF4] hands it to xarray: a string or
    a numeric scalar (NaN as [None]).  Python [==] on two such values:
    strings compare as strings, numbers as IEEE numbers (NaN is unequal to
    everything), a string is never equal to a number. *)
Inductive attr_val :=
| AttrStr (s : string)
| AttrNum (x : option Q).

Definition attr_eqb (a b : attr_val) : bool :=
  match a, b with
  | AttrStr s, AttrStr t => String.eqb s t
  | AttrNum (Some x), AttrNum (Some y) => Qeq_bool x y
  | _, _ => false
  end.

(** A variable of a dataset: [dtype], the dimensions with their sizes in
    order ([dims] and [shape] zipped), the attribute dict [attrs] and the
    values flattened in C order. *)
Record DataArray := mkVar {
  dtype : string;
  vdims : list (string * nat);
  attrs : list (string * attr_val);
  data : list (option Q)
}.

(** [ds.variables]: names in their enumeration order, with their records. *)
Definition Dataset := list (string * DataArray).

Definition ds_vars (ds : Dataset) : list string := map fst ds.

Fixpoint assoc {A} (k : string) (l : list (string * A)) : option A :=
  match l with
  | [] => None
  | (k', x) :: l' => if String.eqb k k' then Some x else assoc k l'
  end.

(** Python's [x in l] on a list of strings. *)
Definition mem (x : string) (l : list string) : bool := existsb (String.eqb x) l.

(** [DataArray.dims], [.ndim], [.shape], [.size]. *)
Definition dim_names (v : DataArray) : list string := map fst (vdims v).
Definition ndim (v : DataArray) : nat := length (vdims v).
Definition shape (v : DataArray) : list nat := map snd (vdims v).
Definition size (v : DataArray) : nat := foldr Nat.mul 1 (shape v).

(** Python [==] on two dicts given as association lists with distinct
    keys: same length, and every key of the first is in the second with an
    equal value. *)
Definition dict_eqb {A} (eqb : A -> A -> bool)
    (d1 d2 : list (string * A)) : bool :=
  Nat.eqb (length d1) (length d2) &&
  forallb (fun '(k, x) => match assoc k d2 with
                          | Some y => eqb x y
                          | None => false
                          end) d1.

(** [DataArray.sizes]: the mapping dimension name -> size, compared with
    [Mapping.__eq__], i.e. as dicts (order-insensitive). *)
Definition sizes_eqb (v w : DataArray) : bool := dict_eqb Nat.eqb (vdims v) (vdims w).

(** [DataArray.attrs != DataArray.attrs]. *)
Definition attrs_neqb (v w : DataArray) : bool := negb (dict_eqb attr_eqb (attrs v) (attrs w)).

(** ** Logger messages (one per format string) *)

Inductive msg :=
| MsgNoVars (test_desc : string)                 (* "%s: no variables to test!" *)
| MsgBaselineOnly (cnt : nat)                    (* "%d variable(s) are in the baseline but not the new file:" *)
| MsgNewOnly (cnt : nat)                         (* "%d variable(s) are in the new file but not the baseline:" *)
| MsgOrdinal (n : nat) (var : string)            (* "%d. %s" *)
| MsgBlank                                       (* "" *)
| MsgDtype (var : string) (tb tn : string)       (* "%s is type %s in baseline and type %s in new file" *)
| MsgNdim (var : string) (nb nn : nat)           (* "%s has %d dimensions in baseline and %d dimensions in new file" *)
| MsgSize (var : string) (sb sn : nat)           (* "%s has size %d in baseline and size %d in new file" *)
| MsgMetaHeader (var : string)                   (* "Metadata difference in %s:" *)
| MsgAttrNotInNew (attr : string)                (* "%s not defined in new_file" *)
| MsgAttrNotInBaseline (attr : string)           (* "%s not defined in baseline" *)
| MsgAttrValue (attr : string) (vb vn : attr_val) (* "%s is '%s' in baseline but '%s' in new_file" *)
| MsgValHeader (var : string)                    (* "Variable: %s ..." *)
| MsgValDtype (dt : string)                      (* "... variable is {} ..." *)
| MsgMasks                                       (* "... Masks are not the same" *)
| MsgAbsDiff (d : Q)                             (* "... Biggest (absolute) diff = {}" *)
| MsgRelDiff (d : Q)                             (* "... Biggest (relative) diff = {}" *)
| MsgSummaryHeader                               (* "Summary\n-------" *)
| MsgSummary (n : nat) (line : string).          (* "(%d) %s" *)

(** ** Test results: the values of the [OrderedDict] [self.test_results] *)

Record test_result := mkResult {
  pass : bool;
  result : string;
  fail_msg : option string
}.

(** ["%d/%d pass" % (k, n)] *)
Definition pass_msg (k n : nat) : string := pretty k +:+ "/" +:+ pretty n +:+ " pass".

(** ** The object state and the state/exception monad *)

Record St := mkSt {
  common_vars : list string;
  test_results : list (string * test_result);
  logs : list msg
}.

Inductive exn := ValueError | KeyError.

Definition M (A : Type) : Type := St -> exn + (A * St).

Definition ret {A} (x : A) : M A := fun s => inr (x, s).
Definition bind {A B} (c : M A) (f : A -> M B) : M B :=
  fun s => match c s with
           | inl e => inl e
           | inr (x, s') => f x s'
           end.
Definition raise {A} (e : exn) : M A := fun _ => inl e.
Definition get : M St := fun s => inr (s, s).

Notation "'let*' x := c 'in' k" := (bind c (fun x => k))
  (at level 200, x name, c at level 100, k at level 200).
Declare Scope m_scope.
Notation "c1 ;; c2" := (bind c1 (fun _ => c2)) : m_scope.
Open Scope m_scope.

Definition info (m : msg) : M unit :=
  fun s => inr (tt, mkSt (common_vars s) (test_results s) (logs s ++ [m])).
Definition set_common (l : list string) : M unit :=
  fun s => inr (tt, mkSt l (test_results s) (logs s)).
(** [self.test_results[test_desc] = r] for a key not yet present. *)
Definition store_result (test_desc : string) (r : test_result) : M unit :=
  fun s => inr (tt, mkSt (common_vars s) (test_results s ++ [(test_desc, r)]) (logs s)).

(** [ds[var]]: KeyError on a missing name. *)
Definition ds_get (ds : Dataset) (var : string) : M DataArray :=
  match assoc var ds with Some v => ret v | None => raise KeyError end.

(** [list.remove(x)]: drops the first occurrence, ValueError if absent. *)
Fixpoint list_remove (x : string) (l : list string) : option (list string) :=
  match l with
  | [] => None
  | y :: l' => if String.eqb x y then Some l'
               else option_map (cons y) (list_remove x l')
  end.

Definition py_remove (x : string) : M unit :=
  let* s := get in
  match list_remove x (common_vars s) with
  | Some l => set_common l
  | None => raise ValueError
  end.

Fixpoint mapM_ {A} (f : A -> M unit) (l : list A) : M unit :=
  match l with
  | [] => ret tt
  | x :: l' => f x;; mapM_ f l'
  end.

Definition when (b : bool) (c : M unit) : M unit := if b then c else ret tt.

(** ** [__init__]

    [self.common_vars = list(set(baseline vars) & set(new_file vars))].
    The iteration order of a Python set is unspecified; the list is taken in
    the baseline's enumeration order, one of the orders Python may produce.
    The log lines of [__init__] (file names and modification times) are
    left out. *)
Definition init (b n : Dataset) : St :=
  mkSt (List.filter (fun v => mem v (ds_vars n)) (ds_vars b)) [] [].

(** ** Stage 1: [compare_variable_names] *)

(** [for n, var in enumerate(l): logger.info("%d. %s", n+1, var)] *)
Fixpoint log_enumerated (i : nat) (l : list string) : M unit :=
  match l with
  | [] => ret tt
  | var :: l' => info (MsgOrdinal (S i) var);; log_enumerated (S i) l'
  end.

Definition compare_variable_names (b n : Dataset) (quiet : bool) : M unit :=
  let test_desc := "Compare Variable Names" in
  let* s := get in
  let common := common_vars s in
  match common with
  | [] => info (MsgNoVars test_desc)
  | _ =>
    if Nat.eqb (length (ds_vars b)) (length (ds_vars n)) &&
       Nat.eqb (length (ds_vars b)) (length common)
    then store_result test_desc
           (mkResult true "Variable list matches -- all variables exist in both files" None)
    else
      let baseline_only := List.filter (fun v => negb (mem v common)) (ds_vars b) in
      let new_file_only := List.filter (fun v => negb (mem v common)) (ds_vars n) in
      when (negb quiet)
        (when (negb (bool_decide (baseline_only = [])))
           (info (MsgBaselineOnly (length baseline_only));; log_enumerated 0 baseline_only);;
         when (negb (bool_decide (new_file_only = [])))
           (info (MsgNewOnly (length new_file_only));; log_enumerated 0 new_file_only);;
         info MsgBlank);;
      let success_cnt := length common in
      let fail_cnt := length baseline_only + length new_file_only in
      store_result test_desc
        (mkResult false
           ("Variable list does not match -- " +:+ pretty fail_cnt +:+
            " variables exist in one file but not the other, only " +:+
            pretty success_cnt +:+ " in both")
           (Some (pass_msg success_cnt (success_cnt + fail_cnt))))
  end.

(** ** Stage 2: [compare_variable_type_and_dims] *)

(** The body of the loop for one [var]: the if/elif chain on dtype, ndim
    and sizes; returns the names appended to [remove_var]. *)
Definition check_type_and_dims (b n : Dataset) (quiet : bool) (var : string)
    : M (list string) :=
  let* bv := ds_get b var in
  let* nv := ds_get n var in
  if negb (String.eqb (dtype bv) (dtype nv)) then
    when (negb quiet) (info (MsgDtype var (dtype bv) (dtype nv)));; ret [var]
  else if negb (Nat.eqb (ndim bv) (ndim nv)) then
    when (negb quiet) (info (MsgNdim var (ndim bv) (ndim nv)));; ret [var]
  else if negb (sizes_eqb bv nv) then
    when (negb quiet) (info (MsgSize var (size bv) (size nv)));; ret [var]
  else ret [].

Fixpoint type_dims_loop (b n : Dataset) (quiet : bool) (vars : list string)
    : M (list string) :=
  match vars with
  | [] => ret []
  | var :: vs =>
      let* r := check_type_and_dims b n quiet var in
      let* rest := type_dims_loop b n quiet vs in
      ret (r ++ rest)
  end.

Definition compare_variable_type_and_dims (b n : Dataset) (quiet : bool) : M unit :=
  let test_desc := "Compare Variable Types and Dimensions" in
  let* s := get in
  match common_vars s with
  | [] => info (MsgNoVars test_desc)
  | common =>
    let* remove_var := type_dims_loop b n quiet common in
    let total_cnt := length common in
    match remove_var with
    | [] =>
      store_result test_desc
        (mkResult true ("All " +:+ pretty total_cnt +:+
                        " variables that appear in both files have same type / dimension") None)
    | _ =>
      mapM_ py_remove remove_var;;
      let fail_cnt := length remove_var in
      store_result test_desc
        (mkResult false
           ("Variable types / dimensions do not match -- " +:+ pretty fail_cnt +:+ " of " +:+
            pretty total_cnt +:+ " variables that appear in both files differ in type or dimension")
           (Some (pass_msg (total_cnt - fail_cnt) total_cnt)))
    end
  end.

(** ** Stage 3: [compare_metadata] and [get_metadata_differences] *)

Definition get_metadata_differences (baseline_attrs new_file_attrs : list (string * attr_val))
    : M unit :=
  let common_attrs :=
    List.filter (fun k => mem k (map fst new_file_attrs)) (map fst baseline_attrs) in
  when (negb (Nat.eqb (length baseline_attrs) (length new_file_attrs)) ||
        negb (Nat.eqb (length baseline_attrs) (length common_attrs)))
    (let baseline_only :=
       List.filter (fun k => negb (mem k common_attrs)) (map fst baseline_attrs) in
     let new_file_only :=
       List.filter (fun k => negb (mem k common_attrs)) (map fst new_file_attrs) in
     mapM_ (fun k => info (MsgAttrNotInNew k)) baseline_only;;
     mapM_ (fun k => info (MsgAttrNotInBaseline k)) new_file_only);;
  mapM_ (fun k => match assoc k baseline_attrs, assoc k new_file_attrs with
                  | Some x, Some y => when (negb (attr_eqb x y)) (info (MsgAttrValue k x y))
                  | _, _ => raise KeyError
                  end) common_attrs.

(** The loop of [compare_metadata]; returns [fail_cnt]. *)
Fixpoint metadata_loop (b n : Dataset) (quiet : bool) (vars : list string) : M nat :=
  match vars with
  | [] => ret 0
  | var :: vs =>
      let* bv := ds_get b var in
      let* nv := ds_get n var in
      let* k := (if attrs_neqb bv nv then
                   when (negb quiet)
                     (info (MsgMetaHeader var);; get_metadata_differences (attrs bv) (attrs nv));;
                   ret 1
                 else ret 0) in
      let* rest := metadata_loop b n quiet vs in
      ret (k + rest)
  end.

Definition compare_metadata (b n : Dataset) (quiet : bool) : M unit :=
  let test_desc := "Compare Metadata" in
  let* s := get in
  match common_vars s with
  | [] => info (MsgNoVars test_desc)
  | common =>
    let* fail_cnt := metadata_loop b n quiet common in
    let var_cnt := length common in
    if negb (Nat.eqb fail_cnt 0) then
      store_result test_desc
        (mkResult false
           ("Metadata does not match -- " +:+ pretty fail_cnt +:+ " of " +:+ pretty var_cnt +:+
            " variables with same type / dimensions differ")
           (Some (pass_msg (var_cnt - fail_cnt) var_cnt)))
    else
      store_result test_desc
        (mkResult true ("All " +:+ pretty var_cnt +:+
                        " variables with same type / dimensions have same metadata") None)
  end.

(** ** The numeric diff engine: [get_value_differences] *)

Definition isnan (x : option Q) : bool :=
  match x with None => true | Some _ => false end.

(** [np.argwhere] of a flattened boolean array: the positions holding
    [true], in order.  For arrays of the same shape, a row of the
    N-dimensional [argwhere] differs from another row exactly when the flat
    positions differ, so flat positions stand for the rows. *)
Fixpoint argwhere_from (i : nat) (l : list bool) : list nat :=
  match l with
  | [] => []
  | x :: l' => if x then i :: argwhere_from (S i) l' else argwhere_from (S i) l'
  end.

Definition argwhere (l : list bool) : list nat := argwhere_from 0 l.

(** numpy's [a != b] on the two [argwhere] results, of shapes [(k1, ndim)]
    and [(k2, ndim)]: elementwise when [k1 = k2], broadcast along the first
    axis when one of them is 1, and otherwise the shapes do not broadcast
    and the comparison raises ValueError (numpy 1.25 and later). *)
Definition ne_broadcast (xs ys : list nat) : option (list bool) :=
  if Nat.eqb (length xs) (length ys)
  then Some (zip_with (fun x y => negb (Nat.eqb x y)) xs ys)
  else match xs, ys with
       | [x], _ => Some (map (fun y => negb (Nat.eqb x y)) ys)
       | _, [y] => Some (map (fun x => negb (Nat.eqb x y)) xs)
       | _, _ => None
       end.

(** Line 325: [np.any(np.argwhere(np.isnan(b)) != np.argwhere(np.isnan(n)))];
    [None] when the comparison raises. *)
Definition masks_differ (b n : list (option Q)) : option bool :=
  option_map (existsb id) (ne_broadcast (argwhere (map isnan b)) (argwhere (map isnan n))).

(** [np.ma.masked_invalid] on both arrays: the pairs of positions where
    neither value is masked (the mask of a binary masked operation is the
    union of the masks). *)
Definition joint (b n : list (option Q)) : list (Q * Q) :=
  omap (fun '(x, y) => match x, y with Some p, Some q => Some (p, q) | _, _ => None end)
       (zip b n).

(** [np.ma.any(baseline_masked != new_file_masked)] *)
Definition values_differ (b n : list (option Q)) : bool :=
  existsb (fun '(p, q) => negb (Qeq_bool p q)) (joint b n).

(** [np.max] of a masked array, applied here to non-empty lists only. *)
Definition qmax_list (l : list Q) : Q :=
  match l with [] => 0 | x :: l' => fold_left Qmax l' x end.

(** [np.max(np.abs(baseline_masked - new_file_masked))] *)
Definition max_abs_diff (b n : list (option Q)) : Q :=
  qmax_list (map (fun '(p, q) => Qabs (p - q)) (joint b n)).

(** [np.ma.any(baseline_masked != 0)] *)
Definition baseline_nonzero (b : list (option Q)) : bool :=
  existsb (fun q => negb (Qeq_bool q 0)) (omap id b).

(** [np.amax(np.abs(baseline_masked))] *)
Definition baseline_absmax (b : list (option Q)) : Q :=
  qmax_list (map Qabs (omap id b)).

Definition get_value_differences (baseline_data new_file_data : list (option Q)) (dt : string)
    : M unit :=
  info (MsgValDtype dt);;
  match masks_differ baseline_data new_file_data with
  | None => raise ValueError
  | Some m => when m (info MsgMasks)
  end;;
  when (values_differ baseline_data new_file_data)
    (let masked_diff := max_abs_diff baseline_data new_file_data in
     info (MsgAbsDiff masked_diff);;
     when (baseline_nonzero baseline_data)
       (info (MsgRelDiff (masked_diff / baseline_absmax baseline_data))));;
  info MsgBlank.

(** ** Stage 4: [compare_values] *)

(** NaN-aware elementwise equality ([array_equiv]: equal, or both NaN). *)
Definition nan_equiv (x y : option Q) : bool :=
  match x, y with
  | None, None => true
  | Some p, Some q => Qeq_bool p q
  | _, _ => false
  end.

Fixpoint forall2b {A B} (f : A -> B -> bool) (l1 : list A) (l2 : list B) : bool :=
  match l1, l2 with
  | [], [] => true
  | x :: l1', y :: l2' => f x y && forall2b f l1' l2'
  | _, _ => false
  end.

(** [Variable.equals]: same [dims], and [array_equiv] on the values (same
    shape, equal or both NaN at every position).  The [dtype] is not
    compared. *)
Definition var_equals (v w : DataArray) : bool :=
  bool_decide (dim_names v = dim_names w) && bool_decide (shape v = shape w) &&
  forall2b nan_equiv (data v) (data w).

(** The index coordinate of dimension [d] in a dataset opened with
    [decode_coords=False]: the variable named [d], when it is the
    one-dimensional variable along [d]. *)
Definition coord_var (ds : Dataset) (d : string) : option DataArray :=
  match assoc d ds with
  | Some c => if bool_decide (dim_names c = [d]) then Some c else None
  | None => None
  end.

(** [ds[var].coords]: the index coordinates of the dimensions of [var],
    in the order of its dimensions. *)
Fixpoint coords_of (ds : Dataset) (dims : list string) : list (string * DataArray) :=
  match dims with
  | [] => []
  | d :: dims' =>
      match coord_var ds d with
      | Some c => (d, c) :: coords_of ds dims'
      | None => coords_of ds dims'
      end
  end.

Definition coords (ds : Dataset) (v : DataArray) : list (string * DataArray) :=
  coords_of ds (dim_names v).

(** [xarray.core.utils.dict_equiv]: every key of [first] is in [second]
    with a [compat]ible value, and every key of [second] is in [first]. *)
Definition dict_equiv {A} (compat : A -> A -> bool)
    (first second : list (string * A)) : bool :=
  forallb (fun '(k, x) => match assoc k second with
                          | Some y => compat x y
                          | None => false
                          end) first &&
  forallb (fun '(k, _) => mem k (map fst first)) second.

(** [DataArray.equals] ([_all_compat] with ["equals"]): [dict_equiv] of the
    two coordinate dicts under [Variable.equals], then [Variable.equals] of
    the variables.  [b] and [n] are the datasets the two variables come
    from. *)
Definition da_equals (b n : Dataset) (v w : DataArray) : bool :=
  dict_equiv var_equals (coords b v) (coords n w) && var_equals v w.

Fixpoint values_loop (b n : Dataset) (quiet : bool) (vars : list string) : M nat :=
  match vars with
  | [] => ret 0
  | var :: vs =>
      let* bv := ds_get b var in
      let* nv := ds_get n var in
      let* k := (if negb (da_equals b n bv nv) then
                   when (negb quiet)
                     (info (MsgValHeader var);; get_value_differences (data bv) (data nv) (dtype bv));;
                   ret 1
                 else ret 0) in
      let* rest := values_loop b n quiet vs in
      ret (k + rest)
  end.

Definition compare_values (b n : Dataset) (quiet : bool) : M unit :=
  let test_desc := "Compare Values" in
  let* s := get in
  match common_vars s with
  | [] => info (MsgNoVars test_desc)
  | common =>
    let* fail_cnt := values_loop b n quiet common in
    let var_cnt := length common in
    if negb (Nat.eqb fail_cnt 0) then
      store_result test_desc
        (mkResult false
           ("Variable values do not match -- " +:+ pretty fail_cnt +:+ " of " +:+ pretty var_cnt +:+
            " variables with same type / dimensions differ")
           (Some (pass_msg (var_cnt - fail_cnt) var_cnt)))
    else
      store_result test_desc
        (mkResult true ("All " +:+ pretty var_cnt +:+
                        " variables with same type / dimensions have same values") None)
  end.

(** ** [parse_results] *)

Fixpoint parse_loop (quiet : bool) (i : nat) (rs : list (string * test_result)) : M nat :=
  match rs with
  | [] => ret 0
  | (test_desc, r) :: rs' =>
      let* line :=
        (if quiet then
           if pass r then ret (test_desc +:+ ": PASS")
           else match fail_msg r with
                | Some m => ret (test_desc +:+ ": FAIL (" +:+ m +:+ ")")
                | None => raise KeyError
                end
         else ret (result r)) in
      info (MsgSummary (S i) line);;
      let* k := parse_loop quiet (S i) rs' in
      ret ((if pass r then 0 else 1) + k)
  end.

Definition parse_results (quiet : bool) : M nat :=
  let* s := get in
  parse_loop quiet 0 (test_results s).

(** ** [__main__] *)

Definition main_body (b n : Dataset) (quiet : bool) : M nat :=
  compare_variable_names b n quiet;;
  compare_variable_type_and_dims b n quiet;;
  compare_metadata b n quiet;;
  compare_values b n quiet;;
  info MsgSummaryHeader;;
  parse_results quiet.

Definition run (b n : Dataset) (quiet : bool) : exn + (nat * St) :=
  main_body b n quiet (init b n).

(** [sys.exit(err_cnt)]; an uncaught exception ends the interpreter with
    status 1. *)
Definition exit_status (b n : Dataset) (quiet : bool) : nat :=
  match run b n quiet with
  | inl _ => 1
  | inr (k, _) => k
  end.

(** ** [init_logging] *)

(** The [logging] levels used. *)
Definition DEBUG : nat := 10.
Definition INFO : nat := 20.
Definition WARNING : nat := 30.

Inductive stream := Stdout | Stderr.

(** [MaxLevelFilter(level).filter(record)] *)
Definition MaxLevelFilter (level levelno : nat) : bool := Nat.ltb levelno level.

(** A [StreamHandler]: its stream, its level, its filters and its
    formatter (from the record's level name and message). *)
Record handler := mkHandler {
  h_stream : stream;
  h_level : nat;
  h_filters : list (nat -> bool);
  h_format : string -> string -> string
}.

Definition logging_out : handler :=
  mkHandler Stdout DEBUG [MaxLevelFilter WARNING] (fun _ message => message).
Definition logging_err : handler :=
  mkHandler Stderr WARNING [] (fun levelname message => levelname +:+ ": " +:+ message).

(** The root logger once [init_logging] has run: level INFO, the two
    handlers in the order they were added. *)
Definition root_level : nat := INFO.
Definition root_handlers : list handler := [logging_out; logging_err].

(** A record logged through [logging.getLogger(__name__)] (level NOTSET, so
    the root's level applies, and propagating to the root's handlers): the
    lines written, in order.  A handler handles a record when
    [record.levelno >= handler.level] and every filter accepts it. *)
Definition emit (levelno : nat) (levelname message : string) : list (stream * string) :=
  if Nat.ltb levelno root_level then []
  else omap (fun h => if Nat.leb (h_level h) levelno && forallb (fun f => f levelno) (h_filters h)
                      then Some (h_stream h, h_format h levelname message)
                      else None) root_handlers.

(** ** [__main__] with the file checks of [__init__] *)

(** [None] stands for a path that is not a file: [__init__] logs an error
    and calls [sys.exit(1)] (the baseline is checked first). *)
Definition main (baseline new_file : option Dataset) (quiet : bool) : nat :=
  match baseline with
  | None => 1
  | Some b =>
    match new_file with
    | None => 1
    | Some n => exit_status b n quiet
    end
  end.

(** ** Sample datasets *)

Definition v1d (dt : string) (dim : string) (xs : list (option Q)) : DataArray :=
  mkVar dt [(dim, length xs)] [] xs.

Definition ds_A_base : Dataset :=
  [("temp", v1d "float32" "x" [Some 1; Some 2]%Q); ("salt", v1d "float32" "x" [Some 3; Some 4]%Q)].
Definition ds_A_new : Dataset :=
  [("temp", v1d "float32" "x" [Some 1; Some 2]%Q); ("salt", v1d "float32" "x" [Some 3; Some 4]%Q);
   ("depth", v1d "float32" "x" [Some 5; Some 6]%Q)].

(** Two datasets with no variable in common. *)
Definition ds_temp : Dataset := [("temp", v1d "float32" "x" [Some 1; Some 2]%Q)].
Definition ds_salt : Dataset := [("salt", v1d "float32" "x" [Some 1; Some 2]%Q)].

(** [salt] with a NaN at different positions on each side (one each), equal
    elsewhere. *)
Definition ds_D_base : Dataset :=
  [("salt", v1d "float64" "x" [None; Some 2; Some 3]%Q)].
Definition ds_D_new : Dataset :=
  [("salt", v1d "float64" "x" [Some 1; None; Some 3]%Q)].

(** [salt] with no NaN in the baseline and one NaN in the new file. *)
Definition ds_E_base : Dataset := [("salt", v1d "float64" "x" [Some 1; Some 2]%Q)].
Definition ds_E_new : Dataset := [("salt", v1d "float64" "x" [Some 1; None]%Q)].

(** [salt] with two NaNs in the baseline and three in the new file, and a
    differing value at a position where both are finite. *)
Definition ds_F_base : Dataset :=
  [("salt", v1d "float64" "x" [None; None; Some 1; Some 1]%Q)].
Definition ds_F_new : Dataset :=
  [("salt", v1d "float64" "x" [None; None; None; Some 2]%Q)].

(** A dataset whose variable carries an attribute whose value is NaN. *)
Definition ds_nan_attr : Dataset :=
  [("temp", mkVar "float32" [("x", 2)] [("valid_min", AttrNum None)] [Some 1; Some 2]%Q)].

(** [temp] over dimension [x] in the baseline and over [y] in the new file,
    both of length 2. *)
Definition ds_G_base : Dataset := [("temp", v1d "float32" "x" [Some 1; Some 2]%Q)].
Definition ds_G_new : Dataset := [("temp", v1d "float32" "y" [Some 1; Some 2]%Q)].

(** [temp] is [float32] in the baseline and [float64] in the new file;
    [salt] is the same on both sides. *)
Definition ds_B_base : Dataset :=
  [("temp", v1d "float32" "x" [Some 1; Some 2]%Q); ("salt", v1d "float32" "x" [Some 3; Some 4]%Q)].
Definition ds_B_new : Dataset :=
  [("temp", v1d "float64" "x" [Some 1; Some 2]%Q); ("salt", v1d "float32" "x" [Some 3; Some 4]%Q)].

(** A dimension coordinate [x] that is [float32] [0, 1] in the baseline
    and [float64] [0, 2] in the new file, and [temp] over [x], the same on
    both sides. *)
Definition ds_coord_base : Dataset :=
  [("x", v1d "float32" "x" [Some 0; Some 1]%Q); ("temp", v1d "float32" "x" [Some 1; Some 2]%Q)].
Definition ds_coord_new : Dataset :=
  [("x", v1d "float64" "x" [Some 0; Some 2]%Q); ("temp", v1d "float32" "x" [Some 1; Some 2]%Q)].

(** The state after a stage, when it completes. *)
Definition after (c : M unit) (s : St) : St :=
  match c s with
  | inr (_, s') => s'
  | inl _ => s
  end.

(** The states of [main_body] after each of the four stages. *)
Definition state1 (b n : Dataset) (quiet : bool) : St :=
  after (compare_variable_names b n quiet) (init b n).
Definition state2 (b n : Dataset) (quiet : bool) : St :=
  after (compare_variable_type_and_dims b n quiet) (state1 b n quiet).
Definition state3 (b n : Dataset) (quiet : bool) : St :=
  after (compare_metadata b n quiet) (state2 b n quiet).
Definition state4 (b n : Dataset) (quiet : bool) : St :=
  after (compare_values b n quiet) (state3 b n quiet).

(** The test results of a run that completes. *)
Definition run_results (b n : Dataset) (quiet : bool) : option (list (string * test_result)) :=
  match run b n quiet with
  | inl _ => None
  | inr (_, s) => Some (test_results s)
  end.

(** The log of a run that completes. *)
Definition run_logs (b n : Dataset) (quiet : bool) : option (list msg) :=
  match run b n quiet with
  | inl _ => None
  | inr (_, s) => Some (logs s)
  end.

(** Whether a log holds the line "... Masks are not the same". *)
Definition reports_masks (L : list msg) : bool :=
  existsb (fun m => match m with MsgMasks => true | _ => false end) L.

Definition stage_passed (test_desc : string) (rs : list (string * test_result)) : option bool :=
  option_map pass (assoc test_desc rs).

(** ** Proof infrastructure *)

Definition with_logs (s : St) (L : list msg) : St :=
  mkSt (common_vars s) (test_results s) (logs s ++ L).

Lemma with_logs_app s L1 L2 : with_logs (with_logs s L1) L2 = with_logs s (L1 ++ L2).
Proof. unfold with_logs; simpl. by rewrite <- app_assoc. Qed.

Lemma with_logs_nil s : with_logs s [] = s.
Proof. destruct s; unfold with_logs; simpl. by rewrite app_nil_r. Qed.

Lemma bind_inr {A B} (c : M A) (f : A -> M B) s y s' :
  bind c f s = inr (y, s') -> exists x s1, c s = inr (x, s1) /\ f x s1 = inr (y, s').
Proof. unfold bind. destruct (c s) as [e|[x s1]]; [discriminate | eauto]. Qed.

(** Computations that only append to the log. *)
Definition LogOnly {A} (c : M A) : Prop :=
  forall s x s', c s = inr (x, s') -> exists L, s' = with_logs s L.

Lemma LogOnly_ret {A} (x : A) : LogOnly (ret x).
Proof. intros s y s' H. injection H as _ <-. exists []. by rewrite with_logs_nil. Qed.

Lemma LogOnly_raise {A} e : LogOnly (@raise A e).
Proof. intros s y s' H. discriminate. Qed.

Lemma LogOnly_info m : LogOnly (info m).
Proof. intros s y s' H. injection H as _ <-. by exists [m]. Qed.

Lemma LogOnly_when b c : LogOnly c -> LogOnly (when b c).
Proof. destruct b; [done | intros _; apply LogOnly_ret]. Qed.

Lemma LogOnly_bind {A B} (c : M A) (f : A -> M B) :
  LogOnly c -> (forall x, LogOnly (f x)) -> LogOnly (bind c f).
Proof.
  intros Hc Hf s y s' H. apply bind_inr in H as (x & s1 & H1 & H2).
  destruct (Hc _ _ _ H1) as [L1 ->]. destruct (Hf _ _ _ _ H2) as [L2 ->].
  exists (L1 ++ L2). apply with_logs_app.
Qed.

Lemma LogOnly_ds_get ds v : LogOnly (ds_get ds v).
Proof. unfold ds_get. destruct (assoc v ds); [apply LogOnly_ret | apply LogOnly_raise]. Qed.

Lemma LogOnly_mapM_ {A} (f : A -> M unit) l : (forall x, LogOnly (f x)) -> LogOnly (mapM_ f l).
Proof.
  intros Hf. induction l as [|x l IH]; simpl; [apply LogOnly_ret|].
  apply LogOnly_bind; auto.
Qed.

Create HintDb logonly.
#[local] Hint Resolve LogOnly_ret LogOnly_raise LogOnly_info LogOnly_when
  LogOnly_ds_get LogOnly_mapM_ : logonly.

Ltac logonly :=
  repeat first
    [ progress eauto with logonly
    | apply LogOnly_bind; [| intros ?]
    | apply LogOnly_when
    | apply LogOnly_mapM_; intros ?
    | match goal with
      | |- LogOnly (match ?x with _ => _ end) => destruct x
      | |- LogOnly (if ?x then _ else _) => destruct x
      | |- forall _, _ => intros ?
      end ].

Lemma LogOnly_log_enumerated i l : LogOnly (log_enumerated i l).
Proof. revert i; induction l; intros i; simpl; logonly. Qed.
#[local] Hint Resolve LogOnly_log_enumerated : logonly.

Lemma LogOnly_get_metadata_differences ba na : LogOnly (get_metadata_differences ba na).
Proof. unfold get_metadata_differences. logonly. Qed.

Lemma LogOnly_get_value_differences b n dt : LogOnly (get_value_differences b n dt).
Proof. unfold get_value_differences. logonly. Qed.

Lemma LogOnly_check_type_and_dims b n q v : LogOnly (check_type_and_dims b n q v).
Proof. unfold check_type_and_dims. logonly. Qed.
#[local] Hint Resolve LogOnly_get_metadata_differences LogOnly_get_value_differences
  LogOnly_check_type_and_dims : logonly.

Lemma LogOnly_type_dims_loop b n q vs : LogOnly (type_dims_loop b n q vs).
Proof. induction vs; simpl; logonly. Qed.

Lemma LogOnly_metadata_loop b n q vs : LogOnly (metadata_loop b n q vs).
Proof. induction vs; simpl; logonly. Qed.

Lemma LogOnly_values_loop b n q vs : LogOnly (values_loop b n q vs).
Proof. induction vs; simpl; logonly. Qed.
#[local] Hint Resolve LogOnly_type_dims_loop LogOnly_metadata_loop LogOnly_values_loop : logonly.

(** ** Lists and membership *)

Lemma mem_spec x l : mem x l = true <-> x ∈ l.
Proof.
  unfold mem. rewrite existsb_exists, list_elem_of_In. split.
  - intros (y & Hy & E). apply String.eqb_eq in E. by subst.
  - intros Hx. exists x. split; [done | apply String.eqb_refl].
Qed.

Lemma mem_false x l : mem x l = false <-> x ∉ l.
Proof. rewrite <- mem_spec. destruct (mem x l); split; congruence || done. Qed.

Lemma filter_all_false {A} (f : A -> bool) (l : list A) :
  (forall x, x ∈ l -> f x = false) -> List.filter f l = [].
Proof.
  induction l as [|x l IH]; intros H; simpl; [done|].
  rewrite (H x) by set_solver. apply IH. set_solver.
Qed.

Lemma elem_of_init_common b n v :
  v ∈ common_vars (init b n) <-> v ∈ ds_vars b /\ v ∈ ds_vars n.
Proof.
  unfold init; simpl. rewrite list_elem_of_In, filter_In, <- list_elem_of_In, mem_spec.
  done.
Qed.

Lemma filter_all_true {A} (f : A -> bool) (l : list A) :
  (forall x, x ∈ l -> f x = true) -> List.filter f l = l.
Proof.
  induction l as [|x l IH]; intros H; simpl; [done|].
  rewrite (H x) by set_solver. f_equal. apply IH. set_solver.
Qed.

Lemma filter_filter_and {A} (f g : A -> bool) (l : list A) :
  List.filter f (List.filter g l) = List.filter (fun x => g x && f x) l.
Proof.
  induction l as [|x l IH]; simpl; [done|].
  destruct (g x) eqn:Eg, (f x) eqn:Ef; simpl; rewrite ?Ef, ?IH; reflexivity.
Qed.

Lemma elem_of_filter_In {A} (f : A -> bool) (l : list A) x :
  x ∈ List.filter f l <-> x ∈ l /\ f x = true.
Proof. rewrite !list_elem_of_In. apply filter_In. Qed.

Lemma mem_filter_self (f : string -> bool) (l : list string) y :
  y ∈ l -> mem y (List.filter f l) = f y.
Proof.
  intros Hy. destruct (f y) eqn:E.
  - apply mem_spec, elem_of_filter_In. done.
  - apply mem_false. rewrite elem_of_filter_In. intros [_ E']. congruence.
Qed.

Lemma filter_negb_nil {A} (f : A -> bool) (l : list A) :
  List.filter (fun x => negb (f x)) l = [] -> List.filter f l = l /\ forallb f l = true.
Proof.
  induction l as [|x l IH]; simpl; [done|].
  destruct (f x); simpl; [|discriminate]. intros H. destruct (IH H) as [-> ->]. done.
Qed.

Lemma filter_negb_cons {A} (f : A -> bool) (l : list A) x xs :
  List.filter (fun x => negb (f x)) l = x :: xs -> forallb f l = false.
Proof.
  intros H. apply not_true_is_false. intros Hall.
  rewrite forallb_forall in Hall.
  assert (Hx : x ∈ List.filter (fun x => negb (f x)) l) by (rewrite H; set_solver).
  apply elem_of_filter_In in Hx as [Hx Hf]. apply list_elem_of_In in Hx.
  rewrite Hall in Hf by done. discriminate.
Qed.

Lemma NoDup_list_filter {A} (f : A -> bool) (l : list A) :
  NoDup l -> NoDup (List.filter f l).
Proof. rewrite !NoDup_ListNoDup. apply List.NoDup_filter. Qed.

(** [list.remove] on a list without duplicates drops exactly [x]. *)
Lemma list_remove_nodup x l :
  NoDup l -> x ∈ l ->
  list_remove x l = Some (List.filter (fun y => negb (String.eqb x y)) l).
Proof.
  induction l as [|y l IH]; intros Hnd Hx; [set_solver|].
  apply NoDup_cons in Hnd as [Hy Hnd]. simpl.
  destruct (String.eqb x y) eqn:E; simpl.
  - apply String.eqb_eq in E. subst y. f_equal. symmetry. apply filter_all_true.
    intros z Hz. apply negb_true_iff, String.eqb_neq. intros ->. done.
  - apply String.eqb_neq in E. rewrite IH by set_solver. done.
Qed.

Lemma py_remove_all rs s s' :
  mapM_ py_remove rs s = inr (tt, s') ->
  NoDup (common_vars s) -> NoDup rs -> (forall r, r ∈ rs -> r ∈ common_vars s) ->
  s' = mkSt (List.filter (fun y => negb (mem y rs)) (common_vars s)) (test_results s) (logs s).
Proof.
  revert s. induction rs as [|r rs IH]; intros s H Hnd Hrs Hin; simpl in H.
  - injection H as <-. destruct s as [c t l]; simpl. f_equal. symmetry.
    by apply filter_all_true.
  - apply bind_inr in H as ([] & s1 & H1 & H2).
    unfold py_remove, bind, get in H1.
    rewrite list_remove_nodup in H1 by (done || set_solver).
    injection H1 as <-. apply NoDup_cons in Hrs as [Hr Hrs].
    rewrite (IH _ H2); simpl; [| apply NoDup_list_filter; done | done |].
    + f_equal. rewrite filter_filter_and. apply filter_ext. intros y. simpl.
      rewrite (String.eqb_sym y r). by destruct (String.eqb r y).
    + intros r' Hr'. apply elem_of_filter_In. split; [set_solver|].
      apply negb_true_iff, String.eqb_neq. intros ->. done.
Qed.

(** *** Stage 2 *)

Definition td_keep (bv nv : DataArray) : bool :=
  String.eqb (dtype bv) (dtype nv) && Nat.eqb (ndim bv) (ndim nv) && sizes_eqb bv nv.

Definition td_msgs (var : string) (bv nv : DataArray) : list msg :=
  if negb (String.eqb (dtype bv) (dtype nv)) then [MsgDtype var (dtype bv) (dtype nv)]
  else if negb (Nat.eqb (ndim bv) (ndim nv)) then [MsgNdim var (ndim bv) (ndim nv)]
  else if negb (sizes_eqb bv nv) then [MsgSize var (size bv) (size nv)]
  else [].

Definition in_both (b n : Dataset) (v : string) : Prop :=
  is_Some (assoc v b) /\ is_Some (assoc v n).

Definition keep_var (b n : Dataset) (v : string) : bool :=
  match assoc v b, assoc v n with Some bv, Some nv => td_keep bv nv | _, _ => true end.

Definition var_msgs (b n : Dataset) (v : string) : list msg :=
  match assoc v b, assoc v n with Some bv, Some nv => td_msgs v bv nv | _, _ => [] end.

Lemma check_run b n q v s r s' :
  check_type_and_dims b n q v s = inr (r, s') ->
  in_both b n v /\ r = (if keep_var b n v then [] else [v]) /\
  s' = with_logs s (if q then [] else var_msgs b n v).
Proof.
  unfold check_type_and_dims, ds_get, keep_var, var_msgs, td_keep, td_msgs, in_both.
  destruct (assoc v b) as [bv|]; [|discriminate].
  destruct (assoc v n) as [nv|]; [|discriminate].
  intros H. split; [split; eexists; reflexivity|]. cbn in H.
  destruct (String.eqb (dtype bv) (dtype nv)), (Nat.eqb (ndim bv) (ndim nv)),
    (sizes_eqb bv nv), q; cbn in H |- *; injection H as <- <-;
    rewrite ?with_logs_nil; done.
Qed.

Lemma type_dims_loop_run b n q vs s r s' :
  type_dims_loop b n q vs s = inr (r, s') ->
  (forall v, v ∈ vs -> in_both b n v) /\
  r = List.filter (fun v => negb (keep_var b n v)) vs /\
  s' = with_logs s (if q then [] else concat (map (var_msgs b n) vs)).
Proof.
  revert s r. induction vs as [|v vs IH]; intros s r H; simpl in H.
  - injection H as <- <-. split; [set_solver|]. split; [done|].
    destruct q; by rewrite with_logs_nil.
  - apply bind_inr in H as (r1 & s1 & H1 & H).
    apply bind_inr in H as (r2 & s2 & H2 & H).
    injection H as <- <-.
    apply check_run in H1 as (Hb1 & -> & ->).
    apply IH in H2 as (Hb2 & -> & ->).
    split; [intros x Hx; apply elem_of_cons in Hx as [->|Hx]; auto|].
    split.
    + simpl. by destruct (keep_var b n v).
    + rewrite with_logs_app. destruct q; done.
Qed.

Lemma stage2_run b n q s s' :
  compare_variable_type_and_dims b n q s = inr (tt, s') ->
  NoDup (common_vars s) ->
  (common_vars s = [] -> s' = with_logs s [MsgNoVars "Compare Variable Types and Dimensions"]) /\
  (common_vars s <> [] ->
   (forall v, v ∈ common_vars s -> in_both b n v) /\
   common_vars s' = List.filter (keep_var b n) (common_vars s) /\
   logs s' = logs s ++ (if q then [] else concat (map (var_msgs b n) (common_vars s))) /\
   exists r, test_results s' = test_results s ++ [("Compare Variable Types and Dimensions", r)] /\
             pass r = forallb (keep_var b n) (common_vars s)).
Proof.
  intros H Hnd. unfold compare_variable_type_and_dims in H.
  apply bind_inr in H as (s0 & s1 & Hg & H). injection Hg as <- <-.
  destruct (common_vars s) as [|c cs] eqn:Ec.
  { injection H as <-. split; [done | congruence]. }
  split; [discriminate|]. intros _.
  apply bind_inr in H as (rv & s2 & Hl & H).
  apply type_dims_loop_run in Hl as (Hin & -> & ->).
  split; [done|].
  destruct (List.filter (fun v => negb (keep_var b n v)) (c :: cs)) as [|x xs] eqn:Ef.
  - injection H as <-. apply filter_negb_nil in Ef as [Ef1 Ef2].
    unfold with_logs; cbn [common_vars test_results logs].
    rewrite Ec, Ef1. split; [done|]. split; [done|]. eexists. split; [done|]. done.
  - apply bind_inr in H as ([] & s3 & H3 & H). injection H as <-.
    rewrite <- Ef in H3.
    apply py_remove_all in H3; unfold with_logs in *; cbn [common_vars test_results logs] in *.
    2: { by rewrite Ec. }
    2: { apply NoDup_list_filter. done. }
    2: { intros r Hr. apply elem_of_filter_In in Hr as [Hr _]. by rewrite Ec. }
    subst s3; cbn [common_vars test_results logs]. rewrite Ec. split; [|split; [done|]].
    + apply filter_ext_in. intros y Hy. apply list_elem_of_In in Hy.
      rewrite mem_filter_self by done. by destruct (keep_var b n y).
    + eexists. split; [done|]. cbn [pass]. symmetry.
      by eapply filter_negb_cons.
Qed.

(** *** Stage 1 *)

Lemma stage1_run b n q s s' :
  compare_variable_names b n q s = inr (tt, s') ->
  common_vars s' = common_vars s /\
  (common_vars s = [] -> test_results s' = test_results s) /\
  (common_vars s <> [] -> exists r,
     test_results s' = test_results s ++ [("Compare Variable Names", r)] /\
     pass r = (Nat.eqb (length (ds_vars b)) (length (ds_vars n)) &&
               Nat.eqb (length (ds_vars b)) (length (common_vars s))) /\
     (pass r = false -> fail_msg r = Some (pass_msg (length (common_vars s))
        (length (common_vars s) +
          (length (List.filter (fun v => negb (mem v (common_vars s))) (ds_vars b)) +
           length (List.filter (fun v => negb (mem v (common_vars s))) (ds_vars n))))))).
Proof.
  intros H. unfold compare_variable_names in H. cbv zeta in H.
  apply bind_inr in H as (s0 & s1 & Hg & H). injection Hg as <- <-.
  destruct (common_vars s) as [|c cs] eqn:Ec.
  - injection H as <-. cbn. rewrite Ec. split; [done|]. split; [done|]. congruence.
  - destruct (Nat.eqb (length (ds_vars b)) (length (ds_vars n)) &&
              Nat.eqb (length (ds_vars b)) (length (c :: cs))) eqn:Eq.
    + injection H as <-. cbn. rewrite Ec. split; [done|]. split; [discriminate|].
      intros _. eexists. split; [done|]. split; [done|]. discriminate.
    + apply bind_inr in H as ([] & s2 & Hw & H).
      assert (Hlo : LogOnly (when (negb q)
        (when (negb (bool_decide (List.filter (fun v => negb (mem v (c :: cs))) (ds_vars b) = [])))
           (info (MsgBaselineOnly (length (List.filter (fun v => negb (mem v (c :: cs))) (ds_vars b))));;
            log_enumerated 0 (List.filter (fun v => negb (mem v (c :: cs))) (ds_vars b)));;
         when (negb (bool_decide (List.filter (fun v => negb (mem v (c :: cs))) (ds_vars n) = [])))
           (info (MsgNewOnly (length (List.filter (fun v => negb (mem v (c :: cs))) (ds_vars n))));;
            log_enumerated 0 (List.filter (fun v => negb (mem v (c :: cs))) (ds_vars n)));;
         info MsgBlank))) by logonly.
      destruct (Hlo _ _ _ Hw) as [L ->].
      injection H as <-. cbn. rewrite Ec. split; [done|]. split; [discriminate|].
      intros _. eexists. split; [done|]. split; [done|]. done.
Qed.

(** *** Stage 3 *)

Lemma stage3_common b n q s s' :
  compare_metadata b n q s = inr (tt, s') -> common_vars s' = common_vars s.
Proof.
  intros H. unfold compare_metadata in H.
  apply bind_inr in H as (s0 & s1 & Hg & H). injection Hg as <- <-.
  destruct (common_vars s) as [|c cs] eqn:Ec.
  - injection H as <-. cbn. done.
  - apply bind_inr in H as (k & s2 & Hl & H).
    destruct (LogOnly_metadata_loop _ _ _ _ _ _ _ Hl) as [L ->].
    destruct (negb (Nat.eqb k 0)); injection H as <-; cbn; done.
Qed.

(** *** Stage 4 *)

Definition eq_var (b n : Dataset) (v : string) : bool :=
  match assoc v b, assoc v n with Some bv, Some nv => da_equals b n bv nv | _, _ => true end.

Lemma values_loop_run b n q vs s k s' :
  values_loop b n q vs s = inr (k, s') ->
  (forall v, v ∈ vs -> in_both b n v) /\
  k = length (List.filter (fun v => negb (eq_var b n v)) vs) /\
  exists L, s' = with_logs s L.
Proof.
  revert s k. induction vs as [|v vs IH]; intros s k H; simpl in H.
  - injection H as <- <-. split; [set_solver|]. split; [done|].
    exists []. by rewrite with_logs_nil.
  - apply bind_inr in H as (bv & s1 & H1 & H). unfold ds_get in H1.
    destruct (assoc v b) as [bv'|] eqn:Eb; [|discriminate]. injection H1 as <- <-.
    apply bind_inr in H as (nv & s1 & H1 & H). unfold ds_get in H1.
    destruct (assoc v n) as [nv'|] eqn:En; [|discriminate]. injection H1 as <- <-.
    apply bind_inr in H as (k1 & s3 & Hk & H).
    apply bind_inr in H as (k2 & s4 & Hr & H). injection H as <- <-.
    apply IH in Hr as (Hin & -> & L2 & ->).
    assert (Hv : eq_var b n v = da_equals b n bv' nv') by (unfold eq_var; by rewrite Eb, En).
    assert (Hk' : k1 = (if eq_var b n v then 0 else 1) /\ exists L1, s3 = with_logs s L1).
    { rewrite Hv. destruct (da_equals b n bv' nv'); cbn in Hk.
      - injection Hk as <- <-. split; [done|]. exists []. by rewrite with_logs_nil.
      - apply bind_inr in Hk as ([] & s5 & Hw & Hk). injection Hk as <- <-.
        split; [done|]. eapply LogOnly_when; [|exact Hw]. logonly. }
    destruct Hk' as [-> [L1 ->]].
    split.
    + intros x Hx. apply elem_of_cons in Hx as [->|Hx]; [|auto].
      split; eexists; [exact Eb | exact En].
    + split; [simpl; by destruct (eq_var b n v)|].
      exists (L1 ++ L2). apply with_logs_app.
Qed.

Lemma forallb_filter_negb {A} (f : A -> bool) (l : list A) :
  forallb f l = Nat.eqb (length (List.filter (fun x => negb (f x)) l)) 0.
Proof. induction l as [|x l IH]; simpl; [done|]. by destruct (f x). Qed.

Lemma stage4_run b n q s s' :
  compare_values b n q s = inr (tt, s') ->
  common_vars s' = common_vars s /\
  (common_vars s <> [] ->
   (forall v, v ∈ common_vars s -> in_both b n v) /\
   exists r, test_results s' = test_results s ++ [("Compare Values", r)] /\
             pass r = forallb (eq_var b n) (common_vars s)).
Proof.
  intros H. unfold compare_values in H.
  apply bind_inr in H as (s0 & s1 & Hg & H). injection Hg as <- <-.
  destruct (common_vars s) as [|c cs] eqn:Ec.
  - injection H as <-. cbn. split; [done | congruence].
  - apply bind_inr in H as (k & s2 & Hl & H).
    apply values_loop_run in Hl as (Hin & -> & L & ->).
    rewrite forallb_filter_negb.
    split; [destruct (negb _); injection H as <-; cbn; done|].
    intros _. split; [done|].
    destruct (Nat.eqb _ 0); cbn in H; injection H as <-; cbn; by eexists.
Qed.

(** *** [DataArray.equals] *)

Lemma values_differ_cons x y xs ys :
  values_differ (x :: xs) (y :: ys) =
  (match x, y with Some p, Some q => negb (Qeq_bool p q) | _, _ => false end)
  || values_differ xs ys.
Proof. destruct x, y; reflexivity. Qed.

Lemma forall2b_nan_equiv xs ys :
  forall2b nan_equiv xs ys = true <->
  length xs = length ys /\ map isnan xs = map isnan ys /\ values_differ xs ys = false.
Proof.
  revert ys. induction xs as [|x xs IH]; intros [|y ys]; simpl.
  - done.
  - split; [discriminate | intros [? _]; discriminate].
  - split; [discriminate | intros [? _]; discriminate].
  - rewrite values_differ_cons, andb_true_iff, orb_false_iff, IH.
    destruct x as [p|], y as [q|]; simpl.
    + destruct (Qeq_bool p q); simpl;
        split; intros; destruct_and?; split_and?; try congruence; try done.
      all: match goal with H : _ :: _ = _ :: _ |- _ => injection H; done | _ => idtac end.
    + split; [intros [[=] _] | intros [_ [[=] _]]].
    + split; [intros [[=] _] | intros [_ [[=] _]]].
    + split.
      * intros [_ (? & ? & ?)]. split_and?; congruence.
      * intros (Hl & Hm & _ & Hv). injection Hl as Hl. injection Hm as Hm. done.
Qed.

Lemma var_equals_spec bv nv :
  var_equals bv nv = true <->
  dim_names bv = dim_names nv /\ shape bv = shape nv /\
  length (data bv) = length (data nv) /\ map isnan (data bv) = map isnan (data nv) /\
  values_differ (data bv) (data nv) = false.
Proof.
  unfold var_equals. rewrite !andb_true_iff, !bool_decide_eq_true, forall2b_nan_equiv.
  tauto.
Qed.

(** Coordinates compared dimension by dimension: absent on both sides, or
    present on both and [Variable.equals]. *)
Definition coord_eqb (b n : Dataset) (d : string) : bool :=
  match coord_var b d, coord_var n d with
  | Some cb, Some cn => var_equals cb cn
  | None, None => true
  | _, _ => false
  end.

Lemma forallb_coords (ds : Dataset) (h : string * DataArray -> bool) l :
  forallb h (coords_of ds l) =
  forallb (fun d => match coord_var ds d with Some c => h (d, c) | None => true end) l.
Proof.
  induction l as [|d l IH]; simpl; [done|].
  destruct (coord_var ds d); simpl; by rewrite IH.
Qed.

Lemma assoc_coords ds l d :
  assoc d (coords_of ds l) =
  if mem d l then coord_var ds d else None.
Proof.
  unfold mem. induction l as [|d' l IH]; simpl; [done|].
  destruct (String.eqb_spec d d') as [->|Hne].
  - destruct (coord_var ds d') eqn:E; simpl.
    + by rewrite String.eqb_refl.
    + rewrite IH. by destruct (existsb _ l).
  - destruct (coord_var ds d'); simpl; [|done].
    destruct (String.eqb_spec d d'); [congruence|done].
Qed.

Lemma mem_fst_coords ds l k :
  mem k (map fst (coords_of ds l)) =
  mem k l && bool_decide (is_Some (coord_var ds k)).
Proof.
  unfold mem. induction l as [|d l IH]; simpl; [done|].
  destruct (String.eqb_spec k d) as [->|Hne].
  - destruct (coord_var ds d); simpl; [by rewrite String.eqb_refl|].
    rewrite IH. by destruct (existsb _ l).
  - destruct (coord_var ds d); simpl; [|done].
    destruct (String.eqb_spec k d); [congruence|done].
Qed.

Lemma forallb_and_ext {A} (f g h : A -> bool) l :
  (forall x, In x l -> f x && g x = h x) ->
  forallb f l && forallb g l = forallb h l.
Proof.
  induction l as [|x l IH]; simpl; intros H; [done|].
  rewrite <- (H x (or_introl eq_refl)), <- IH by auto.
  destruct (f x), (g x), (forallb f l), (forallb g l); reflexivity.
Qed.

Lemma dict_equiv_coords b n l :
  dict_equiv var_equals (coords_of b l)
                        (coords_of n l) =
  forallb (coord_eqb b n) l.
Proof.
  unfold dict_equiv. rewrite !forallb_coords. apply forallb_and_ext.
  intros d Hd. rewrite assoc_coords, mem_fst_coords.
  assert (Hm : mem d l = true) by (apply existsb_exists; exists d; by rewrite String.eqb_refl).
  rewrite Hm. unfold coord_eqb.
  destruct (coord_var b d), (coord_var n d); simpl; by rewrite ?andb_true_r.
Qed.

Lemma coord_eqb_true b n d :
  coord_eqb b n d = true <->
  match coord_var b d, coord_var n d with
  | Some cb, Some cn => var_equals cb cn = true
  | None, None => True
  | _, _ => False
  end.
Proof.
  unfold coord_eqb.
  destruct (coord_var b d), (coord_var n d); split; intros H;
    first [exact H | exact I | reflexivity | discriminate H | destruct H].
Qed.

Lemma da_equals_spec b n bv nv :
  da_equals b n bv nv = true <->
  var_equals bv nv = true /\ forallb (coord_eqb b n) (dim_names bv) = true.
Proof.
  unfold da_equals, coords. rewrite andb_true_iff.
  split; intros [H1 H2].
  - pose proof (proj1 (proj1 (var_equals_spec bv nv) H2)) as Hd.
    rewrite Hd in H1 |- *. rewrite dict_equiv_coords in H1. done.
  - pose proof (proj1 (proj1 (var_equals_spec bv nv) H1)) as Hd.
    rewrite Hd in H2 |- *. rewrite dict_equiv_coords. done.
Qed.

Lemma nan_equiv_refl_list xs : forall2b nan_equiv xs xs = true.
Proof.
  induction xs as [|[x|] xs IH]; cbn; [done| |done].
  rewrite Qeq_bool_refl. done.
Qed.

Lemma var_equals_refl x : var_equals x x = true.
Proof.
  unfold var_equals. rewrite !bool_decide_eq_true_2 by done. apply nan_equiv_refl_list.
Qed.

Lemma da_equals_refl b x : da_equals b b x x = true.
Proof.
  apply da_equals_spec. split; [apply var_equals_refl|].
  apply forallb_forall. intros d _. unfold coord_eqb.
  destruct (coord_var b d); [apply var_equals_refl | done].
Qed.

(** *** Association lists and dict equality *)

Lemma elem_of_map_fst {A} k (d : list (string * A)) :
  k ∈ map fst d <-> exists x, (k, x) ∈ d.
Proof.
  rewrite list_elem_of_In, in_map_iff. split.
  - intros ([k' x] & <- & H). exists x. by apply list_elem_of_In.
  - intros [x H]. exists (k, x). split; [done|]. by apply list_elem_of_In.
Qed.

Lemma assoc_Some_In {A} k (d : list (string * A)) x :
  assoc k d = Some x -> (k, x) ∈ d.
Proof.
  induction d as [|[k' y] d IH]; simpl; [discriminate|].
  destruct (String.eqb k k') eqn:E.
  - apply String.eqb_eq in E. subst. intros [= ->]. apply elem_of_cons. by left.
  - intros H. apply elem_of_cons. right. auto.
Qed.

Lemma assoc_None {A} k (d : list (string * A)) :
  assoc k d = None <-> k ∉ map fst d.
Proof.
  induction d as [|[k' y] d IH]; simpl.
  - split; [intros _ H; inversion H | done].
  - rewrite elem_of_cons. destruct (String.eqb k k') eqn:E.
    + apply String.eqb_eq in E. subst. split; [discriminate | intros H; exfalso; auto].
    + apply String.eqb_neq in E. rewrite IH. simpl. tauto.
Qed.

Lemma elem_of_keys_assoc {A} k (d : list (string * A)) :
  k ∈ map fst d <-> assoc k d <> None.
Proof.
  split.
  - intros H Hn. by apply assoc_None in Hn.
  - intros H. destruct (decide (k ∈ map fst d)) as [|Hn]; [done|].
    by apply assoc_None in Hn.
Qed.

Lemma assoc_In_NoDup {A} k (d : list (string * A)) x :
  NoDup (map fst d) -> (k, x) ∈ d -> assoc k d = Some x.
Proof.
  induction d as [|[k' y] d IH]; simpl; intros Hnd Hin.
  - inversion Hin.
  - apply NoDup_cons in Hnd as [Hk Hnd].
    apply elem_of_cons in Hin as [Heq|Hin].
    + injection Heq as -> ->. by rewrite String.eqb_refl.
    + destruct (String.eqb k k') eqn:E.
      * apply String.eqb_eq in E. subst k'. exfalso. apply Hk.
        apply elem_of_map_fst. by exists x.
      * auto.
Qed.

(** Python dict equality is key-wise equality of the lookups, when both
    dicts have distinct keys. *)
Lemma dict_eqb_spec {A} (eqb : A -> A -> bool) (d1 d2 : list (string * A)) :
  (forall x y, eqb x y = true <-> x = y) ->
  NoDup (map fst d1) -> NoDup (map fst d2) ->
  dict_eqb eqb d1 d2 = true <-> (forall k, assoc k d1 = assoc k d2).
Proof.
  intros Heqb Hnd1 Hnd2. unfold dict_eqb. rewrite andb_true_iff, Nat.eqb_eq, forallb_forall.
  split.
  - intros [Hlen Hall].
    assert (Hsub : forall k x, (k, x) ∈ d1 -> assoc k d2 = Some x).
    { intros k x Hin. specialize (Hall (k, x) (proj1 (list_elem_of_In _ _) Hin)).
      simpl in Hall. destruct (assoc k d2) as [y|]; [|discriminate].
      apply Heqb in Hall. by subst. }
    assert (Hincl : incl (map fst d2) (map fst d1)).
    { apply NoDup_length_incl; [apply NoDup_ListNoDup; done | rewrite !length_map; lia |].
      intros k Hk. apply list_elem_of_In in Hk. apply list_elem_of_In.
      apply elem_of_map_fst in Hk as [x Hx]. apply elem_of_map_fst. exists x.
      apply assoc_Some_In. by apply Hsub. }
    intros k. destruct (assoc k d1) as [x|] eqn:E1.
    + symmetry. apply Hsub, assoc_Some_In, E1.
    + symmetry. apply assoc_None. apply assoc_None in E1. intros Hk. apply E1.
      apply list_elem_of_In, Hincl, list_elem_of_In, Hk.
  - intros Hall. split.
    + rewrite <- (length_map fst d1), <- (length_map fst d2).
      apply Permutation_length, NoDup_Permutation; [done|done|].
      intros k. rewrite !elem_of_keys_assoc, Hall. done.
    + intros [k x] Hin. apply list_elem_of_In in Hin.
      rewrite <- Hall, (assoc_In_NoDup k d1 x) by done. by apply Heqb.
Qed.

(** A key of the first dict missing from the second makes them unequal. *)
Lemma dict_eqb_missing {A} (eqb : A -> A -> bool) (d1 d2 : list (string * A)) k :
  k ∈ map fst d1 -> k ∉ map fst d2 -> dict_eqb eqb d1 d2 = false.
Proof.
  intros H1 H2. unfold dict_eqb. apply andb_false_iff. right.
  apply elem_of_map_fst in H1 as [x Hx]. apply assoc_None in H2.
  apply not_true_iff_false. rewrite forallb_forall. intros Hall.
  specialize (Hall (k, x) (proj1 (list_elem_of_In _ _) Hx)). simpl in Hall.
  rewrite H2 in Hall. discriminate.
Qed.

(** Equality of the [.sizes] mappings, as a proposition. *)
Definition same_sizes (bv nv : DataArray) : Prop :=
  forall k, assoc k (vdims bv) = assoc k (vdims nv).

Lemma sizes_eqb_spec bv nv :
  NoDup (dim_names bv) -> NoDup (dim_names nv) ->
  sizes_eqb bv nv = true <-> same_sizes bv nv.
Proof. intros. apply dict_eqb_spec; [intros; apply Nat.eqb_eq | done | done]. Qed.

(** Datasets as netCDF has them: no dimension repeated within a variable. *)
Definition wf_dataset (ds : Dataset) : Prop :=
  Forall (fun p => NoDup (dim_names p.2)) ds.

Lemma wf_dataset_assoc ds v x :
  wf_dataset ds -> assoc v ds = Some x -> NoDup (dim_names x).
Proof.
  intros Hwf Hx. apply assoc_Some_In in Hx.
  unfold wf_dataset in Hwf. rewrite Forall_forall in Hwf.
  exact (Hwf (v, x) Hx).
Qed.

(** *** The Stage 2 log, variable by variable *)

(** Whether a Stage 2 log line is about variable [v]. *)
Definition about (v : string) (m : msg) : bool :=
  match m with
  | MsgDtype w _ _ | MsgNdim w _ _ | MsgSize w _ _ => String.eqb v w
  | _ => false
  end.

Lemma filter_about_var_msgs b n v u :
  List.filter (about v) (var_msgs b n u) = if String.eqb v u then var_msgs b n u else [].
Proof.
  unfold var_msgs. destruct (assoc u b) as [bv|], (assoc u n) as [nv|];
    try (by destruct (String.eqb v u)).
  unfold td_msgs.
  destruct (negb (String.eqb (dtype bv) (dtype nv))), (negb (Nat.eqb (ndim bv) (ndim nv))),
    (negb (sizes_eqb bv nv)); simpl; by destruct (String.eqb v u).
Qed.

Lemma filter_about_concat_notin b n v l :
  v ∉ l -> List.filter (about v) (concat (map (var_msgs b n) l)) = [].
Proof.
  induction l as [|u l IH]; intros Hv; simpl; [done|].
  rewrite List.filter_app, filter_about_var_msgs.
  assert (E : String.eqb v u = false) by (apply String.eqb_neq; set_solver).
  rewrite E, IH by set_solver. done.
Qed.

Lemma filter_about_concat b n v l :
  NoDup l -> v ∈ l ->
  List.filter (about v) (concat (map (var_msgs b n) l)) = var_msgs b n v.
Proof.
  induction l as [|u l IH]; intros Hnd Hv; [inversion Hv|].
  apply NoDup_cons in Hnd as [Hu Hnd]. simpl. rewrite List.filter_app, filter_about_var_msgs.
  destruct (String.eqb v u) eqn:E.
  - apply String.eqb_eq in E. subst u. rewrite filter_about_concat_notin by done.
    apply app_nil_r.
  - apply String.eqb_neq in E. apply IH; [done|]. apply elem_of_cons in Hv as [?|?]; done.
Qed.

Lemma keep_var_assoc b n v bv nv :
  assoc v b = Some bv -> assoc v n = Some nv -> keep_var b n v = td_keep bv nv.
Proof. intros Hb Hn. unfold keep_var. by rewrite Hb, Hn. Qed.

Lemma var_msgs_assoc b n v bv nv :
  assoc v b = Some bv -> assoc v n = Some nv -> var_msgs b n v = td_msgs v bv nv.
Proof. intros Hb Hn. unfold var_msgs. by rewrite Hb, Hn. Qed.

(** *** Counting the union of two name lists *)

Lemma filter_length_split {A} (f : A -> bool) (l : list A) :
  length (List.filter f l) + length (List.filter (fun x => negb (f x)) l) = length l.
Proof. induction l as [|x l IH]; simpl; [done|]. destruct (f x); simpl; lia. Qed.

(** |common| + |baseline only| + |new only| is the size of the union. *)
Lemma union_length (lb ln : list string) :
  NoDup lb -> NoDup ln ->
  length (List.filter (fun v => mem v ln) lb) +
  (length (List.filter (fun v => negb (mem v (List.filter (fun v => mem v ln) lb))) lb) +
   length (List.filter (fun v => negb (mem v (List.filter (fun v => mem v ln) lb))) ln)) =
  length (remove_dups (lb ++ ln)).
Proof.
  intros Hb Hn.
  rewrite (filter_ext_in (fun v => negb (mem v (List.filter (fun v => mem v ln) lb)))
             (fun v => negb (mem v ln)) lb).
  2: { intros v Hv. apply list_elem_of_In in Hv. by rewrite mem_filter_self. }
  rewrite (filter_ext_in (fun v => negb (mem v (List.filter (fun v => mem v ln) lb)))
             (fun v => negb (mem v lb)) ln).
  2: { intros v Hv. apply list_elem_of_In in Hv. f_equal.
       destruct (mem v lb) eqn:E.
       - apply mem_spec, elem_of_filter_In. split; [by apply mem_spec|]. by apply mem_spec.
       - apply mem_false. rewrite elem_of_filter_In. intros [H _].
         by apply mem_false in E. }
  rewrite Nat.add_assoc, filter_length_split, <- length_app.
  apply Permutation_length, NoDup_Permutation.
  - apply NoDup_app. split; [done|]. split.
    + intros x Hx Hx'. apply elem_of_filter_In in Hx' as [_ Hm].
      apply negb_true_iff, mem_false in Hm. done.
    + by apply NoDup_list_filter.
  - apply NoDup_remove_dups.
  - intros x. rewrite elem_of_remove_dups, !elem_of_app, elem_of_filter_In,
      negb_true_iff, mem_false.
    split; [intros [H|[H _]]; auto|].
    intros [H|H]; [auto|]. destruct (decide (x ∈ lb)); auto.
Qed.

(** *** The checks of Stage 2 as propositions *)

Lemma td_keep_spec bv nv :
  NoDup (dim_names bv) -> NoDup (dim_names nv) ->
  td_keep bv nv = true <-> dtype bv = dtype nv /\ ndim bv = ndim nv /\ same_sizes bv nv.
Proof.
  intros H1 H2. unfold td_keep.
  rewrite !andb_true_iff, String.eqb_eq, Nat.eqb_eq, sizes_eqb_spec by done. tauto.
Qed.

(** The log lines of [check_type_and_dims] for one variable: the first
    failing check only. *)
Lemma td_msgs_cases v bv nv :
  NoDup (dim_names bv) -> NoDup (dim_names nv) ->
  (dtype bv <> dtype nv -> td_msgs v bv nv = [MsgDtype v (dtype bv) (dtype nv)]) /\
  (dtype bv = dtype nv -> ndim bv <> ndim nv ->
     td_msgs v bv nv = [MsgNdim v (ndim bv) (ndim nv)]) /\
  (dtype bv = dtype nv -> ndim bv = ndim nv -> ~ same_sizes bv nv ->
     td_msgs v bv nv = [MsgSize v (size bv) (size nv)]) /\
  (dtype bv = dtype nv -> ndim bv = ndim nv -> same_sizes bv nv -> td_msgs v bv nv = []).
Proof.
  intros H1 H2. unfold td_msgs.
  pose proof (sizes_eqb_spec bv nv H1 H2) as Hs.
  destruct (String.eqb_spec (dtype bv) (dtype nv)) as [Ed|Ed];
  destruct (Nat.eqb_spec (ndim bv) (ndim nv)) as [En|En];
  destruct (sizes_eqb bv nv) eqn:Es; simpl;
  split_and!; intros; try done; exfalso; try tauto.
  all: match goal with
       | H : same_sizes _ _ |- _ => apply Hs in H; discriminate
       | H : ~ same_sizes _ _ |- _ => apply H, Hs; done
       end.
Qed.

(** ** Claims *)

(** C9: when the two datasets have no variable name in common, no stage
    (Stage 1 included) records a test result, [parse_results] returns 0
    and the exit status is 0. *)
Theorem disjoint_datasets_exit_zero (b n : Dataset) (quiet : bool) :
  (forall v, v ∈ ds_vars b -> v ∉ ds_vars n) ->
  run b n quiet =
    inr (0, mkSt [] []
              [MsgNoVars "Compare Variable Names";
               MsgNoVars "Compare Variable Types and Dimensions";
               MsgNoVars "Compare Metadata"; MsgNoVars "Compare Values";
               MsgSummaryHeader]) /\
  run_results b n quiet = Some [] /\
  exit_status b n quiet = 0.
Proof.
  intros Hdisj.
  assert (Hc : common_vars (init b n) = []).
  { apply filter_all_false. intros v Hv. apply mem_false. auto. }
  assert (Hrun : run b n quiet =
    inr (0, mkSt [] []
              [MsgNoVars "Compare Variable Names";
               MsgNoVars "Compare Variable Types and Dimensions";
               MsgNoVars "Compare Metadata"; MsgNoVars "Compare Values";
               MsgSummaryHeader])).
  { unfold run. destruct (init b n) as [c r l] eqn:Hi. simpl in Hc. subst c.
    unfold init in Hi. injection Hi as _ <- <-. reflexivity. }
  unfold run_results, exit_status. rewrite Hrun. done.
Qed.

Lemma disjoint_datasets_exit_zero_witness :
  (forall v, v ∈ ds_vars ds_temp -> v ∉ ds_vars ds_salt) /\
  exit_status ds_temp ds_salt false = 0.
Proof.
  assert (H : forall v, v ∈ ds_vars ds_temp -> v ∉ ds_vars ds_salt).
  { simpl. intros v Hv. apply list_elem_of_singleton in Hv. subst v.
    rewrite list_elem_of_singleton. discriminate. }
  split; [exact H|].
  exact (proj2 (proj2 (disjoint_datasets_exit_zero ds_temp ds_salt false H))).
Defined.

(** C2 (code_bug): with baseline variables {temp} and new variables {salt},
    both datasets load, yet Stage 1 records no test result: the run ends
    with an empty result list and exit status 0. *)
Theorem names_stage_skipped_on_disjoint_names :
  run_results ds_temp ds_salt false = Some [] /\
  run_logs ds_temp ds_salt false =
    Some [MsgNoVars "Compare Variable Names";
          MsgNoVars "Compare Variable Types and Dimensions";
          MsgNoVars "Compare Metadata"; MsgNoVars "Compare Values";
          MsgSummaryHeader] /\
  exit_status ds_temp ds_salt false = 0.
Proof. vm_compute. repeat split. Qed.


(** C3 (code_bug): the mask check of [get_value_differences] compares the
    two [argwhere] arrays with numpy broadcasting.  With no NaN in the
    baseline and one NaN in the new file the positions differ but the check
    says they do not, and no "Masks are not the same" line is logged; with
    two NaNs against three the comparison raises and the run aborts. *)
Theorem mask_check_wrong_on_unequal_nan_counts :
  map isnan [Some 1; Some 2]%Q <> map isnan [Some 1; None]%Q /\
  masks_differ [Some 1; Some 2]%Q [Some 1; None]%Q = Some false /\
  option_map reports_masks (run_logs ds_E_base ds_E_new false) = Some false /\
  masks_differ [None; None; Some 1; Some 1]%Q [None; None; None; Some 2]%Q = None /\
  run ds_F_base ds_F_new false = inl ValueError.
Proof. split; [discriminate|]. vm_compute. repeat split. Qed.

(** C7 (code_bug): with NaN counts 2 and 3 the unmasked values differ and
    the baseline has a nonzero unmasked value, but the mask check raises
    before the relative difference is reached: nothing is reported and the
    run aborts. *)
Theorem rel_diff_unreported_after_mask_error :
  values_differ [None; None; Some 1; Some 1]%Q [None; None; None; Some 2]%Q = true /\
  baseline_nonzero [None; None; Some 1; Some 1]%Q = true /\
  get_value_differences [None; None; Some 1; Some 1]%Q [None; None; None; Some 2]%Q
    "float64" (init [] []) = inl ValueError /\
  run ds_F_base ds_F_new false = inl ValueError.
Proof. vm_compute. repeat split. Qed.

(** C8 (code_bug): a dataset whose variable has a NaN-valued attribute,
    compared with itself, fails Stage 3 and ends with verdict 1. *)
Theorem self_compare_fails_with_nan_attribute :
  option_map (stage_passed "Compare Metadata") (run_results ds_nan_attr ds_nan_attr true) =
    Some (Some false) /\
  exit_status ds_nan_attr ds_nan_attr true = 1 /\
  exit_status ds_nan_attr ds_nan_attr false = 1.
Proof. vm_compute. repeat split. Qed.

(** C5 (counterexample): [temp] has the same dtype, the same number of
    dimensions and the same shape [2] on both sides, only its dimension is
    named [x] in one and [y] in the other: Stage 2 still disqualifies it
    and fails. *)
Lemma type_dims_stage_rejects_renamed_dimension :
  dtype (v1d "float32" "x" [Some 1; Some 2]%Q) = dtype (v1d "float32" "y" [Some 1; Some 2]%Q) /\
  ndim (v1d "float32" "x" [Some 1; Some 2]%Q) = ndim (v1d "float32" "y" [Some 1; Some 2]%Q) /\
  shape (v1d "float32" "x" [Some 1; Some 2]%Q) = shape (v1d "float32" "y" [Some 1; Some 2]%Q) /\
  option_map (stage_passed "Compare Variable Types and Dimensions")
    (run_results ds_G_base ds_G_new false) = Some (Some false) /\
  option_map common_vars (match run ds_G_base ds_G_new false with
                          | inl _ => None | inr (_, s) => Some s end) = Some [].
Proof. vm_compute. repeat split. Qed.

(** C4: the working set starts as the intersection of the two name lists
    (without duplicates when the baseline has none); Stage 1 leaves it as it
    is; Stage 2 keeps exactly the variables that pass its checks, so it only
    shrinks; Stages 3 and 4 leave it unchanged whatever the metadata, so a
    variable removed by Stage 2 is absent from the lists Stages 3 and 4
    iterate over. *)
Theorem working_set_narrowing (b n : Dataset) (quiet : bool) (s1 s2 s3 s4 : St) :
  NoDup (ds_vars b) ->
  compare_variable_names b n quiet (init b n) = inr (tt, s1) ->
  compare_variable_type_and_dims b n quiet s1 = inr (tt, s2) ->
  compare_metadata b n quiet s2 = inr (tt, s3) ->
  compare_values b n quiet s3 = inr (tt, s4) ->
  (forall v, v ∈ common_vars (init b n) <-> v ∈ ds_vars b /\ v ∈ ds_vars n) /\
  NoDup (common_vars (init b n)) /\
  common_vars s1 = common_vars (init b n) /\
  common_vars s2 = List.filter (keep_var b n) (common_vars s1) /\
  (forall v, v ∈ common_vars s2 -> v ∈ common_vars s1) /\
  common_vars s3 = common_vars s2 /\
  common_vars s4 = common_vars s3 /\
  (forall v, v ∈ common_vars s1 -> v ∉ common_vars s2 ->
   (v ∉ common_vars s3) /\ (v ∉ common_vars s4)).
Proof.
  intros Hb H1 H2 H3 H4.
  assert (Hnd : NoDup (common_vars (init b n))) by (apply NoDup_list_filter, Hb).
  destruct (stage1_run _ _ _ _ _ H1) as [E1 _].
  assert (E2 : common_vars s2 = List.filter (keep_var b n) (common_vars s1)).
  { destruct (stage2_run _ _ _ _ _ H2) as [Hnil Hcons]; [by rewrite E1|].
    destruct (common_vars s1) eqn:Ec.
    - rewrite (Hnil eq_refl). unfold with_logs. cbn [common_vars]. by rewrite Ec.
    - apply Hcons. discriminate. }
  pose proof (stage3_common _ _ _ _ _ H3) as E3.
  destruct (stage4_run _ _ _ _ _ H4) as [E4 _].
  assert (Hsub : forall v, v ∈ common_vars s2 -> v ∈ common_vars s1).
  { intros v Hv. rewrite E2 in Hv. by apply elem_of_filter_In in Hv as [? _]. }
  split; [apply elem_of_init_common|].
  split; [done|]. split; [done|]. split; [done|]. split; [done|].
  split; [done|]. split; [done|].
  intros v _ Hv. rewrite E4, E3. done.
Qed.

Lemma working_set_narrowing_witness :
  common_vars (state2 ds_B_base ds_B_new false) = ["salt"] /\
  common_vars (state4 ds_B_base ds_B_new false) = ["salt"].
Proof.
  destruct (working_set_narrowing ds_B_base ds_B_new false
              (state1 ds_B_base ds_B_new false) (state2 ds_B_base ds_B_new false)
              (state3 ds_B_base ds_B_new false) (state4 ds_B_base ds_B_new false))
    as (_ & _ & E1 & E2 & _ & E3 & E4 & _).
  - apply (bool_decide_unpack _). vm_compute. exact I.
  - vm_compute. reflexivity.
  - vm_compute. reflexivity.
  - vm_compute. reflexivity.
  - vm_compute. reflexivity.
  - rewrite E4, E3, E2, E1. split; vm_compute; reflexivity.
Defined.

(** C6: when Stage 1 runs and fails, its terse message is
    "<matched>/<total> pass" with matched the number of names in both
    datasets and total the number of names in either; for baseline
    variables [temp], [salt] and new variables [temp], [salt], [depth]
    (whatever their contents) Stage 1 fails with "2/3 pass" and the working
    set is [temp], [salt]. *)
Theorem names_fail_msg_counts :
  (forall (b n : Dataset) (quiet : bool) (s1 : St),
    NoDup (ds_vars b) -> NoDup (ds_vars n) ->
    common_vars (init b n) <> [] ->
    compare_variable_names b n quiet (init b n) = inr (tt, s1) ->
    (forall v, v ∈ common_vars (init b n) <-> v ∈ ds_vars b /\ v ∈ ds_vars n) /\
    NoDup (common_vars (init b n)) /\
    common_vars s1 = common_vars (init b n) /\
    exists r, test_results s1 = [("Compare Variable Names", r)] /\
      (pass r = false ->
       fail_msg r = Some (pass_msg (length (common_vars (init b n)))
                                   (length (remove_dups (ds_vars b ++ ds_vars n)))))) /\
  (forall (t1 a1 t2 a2 d2 : DataArray) (quiet : bool),
    let b := [("temp", t1); ("salt", a1)] in
    let n := [("temp", t2); ("salt", a2); ("depth", d2)] in
    exists s1 r, compare_variable_names b n quiet (init b n) = inr (tt, s1) /\
      test_results s1 = [("Compare Variable Names", r)] /\
      pass r = false /\ fail_msg r = Some "2/3 pass" /\
      common_vars s1 = ["temp"; "salt"]).
Proof.
  split.
  - intros b n quiet s1 Hb Hn Hne H.
    destruct (stage1_run _ _ _ _ _ H) as (E1 & _ & Hr).
    split; [apply elem_of_init_common|].
    split; [apply NoDup_list_filter, Hb|].
    split; [done|].
    destruct (Hr Hne) as (r & Et & _ & Hf). exists r. split; [exact Et|].
    intros Hp. rewrite (Hf Hp). do 3 f_equal.
    unfold init; cbn [common_vars]. by apply union_length.
  - intros t1 a1 t2 a2 d2 quiet b n.
    subst b n. destruct quiet; do 2 eexists; (split; [cbv; reflexivity|]);
      cbv; repeat split.
Qed.

Lemma names_fail_msg_counts_witness :
  fail_msg (snd (hd ("", mkResult true "" None) (test_results (state1 ds_A_base ds_A_new false)))) =
    Some (pass_msg 2 3).
Proof.
  destruct (proj1 names_fail_msg_counts ds_A_base ds_A_new false (state1 ds_A_base ds_A_new false))
    as (_ & _ & _ & r & Et & Hf).
  - apply (bool_decide_unpack _). vm_compute. exact I.
  - apply (bool_decide_unpack _). vm_compute. exact I.
  - vm_compute. discriminate.
  - vm_compute. reflexivity.
  - rewrite Et. cbn [hd snd]. rewrite Hf.
    + vm_compute. reflexivity.
    + assert (Hr : test_results (state1 ds_A_base ds_A_new false) =
                   [("Compare Variable Names", mkResult false
                      "Variable list does not match -- 1 variables exist in one file but not the other, only 2 in both"
                      (Some "2/3 pass"))]) by (vm_compute; reflexivity).
      rewrite Hr in Et. injection Et as <-. reflexivity.
Defined.

(** C10: a variable with the same dtype, the same number of dimensions and
    the same shape on both sides, but a dimension name of the baseline that
    the new file does not have, fails the third check of Stage 2 (the
    [.sizes] mappings differ): it is removed from the working set, the stage
    fails, and the only log line about it is the size line, which reports
    the two total element counts (equal here). *)
Theorem renamed_dimension_disqualified (b n : Dataset) (s s' : St) (v : string)
    (bv nv : DataArray) :
  NoDup (common_vars s) -> v ∈ common_vars s ->
  assoc v b = Some bv -> assoc v n = Some nv ->
  dtype bv = dtype nv -> ndim bv = ndim nv -> shape bv = shape nv ->
  (exists k, k ∈ dim_names bv /\ k ∉ dim_names nv) ->
  compare_variable_type_and_dims b n false s = inr (tt, s') ->
  (v ∉ common_vars s') /\
  (exists L, logs s' = logs s ++ L /\
             List.filter (about v) L = [MsgSize v (size bv) (size nv)]) /\
  size bv = size nv /\
  exists r, test_results s' = test_results s ++ [("Compare Variable Types and Dimensions", r)] /\
            pass r = false.
Proof.
  intros Hnd Hv Hb Hn Hdt Hnd' Hsh [k [Hk1 Hk2]] H.
  assert (Hne : common_vars s <> []) by (intros E; rewrite E in Hv; inversion Hv).
  destruct (stage2_run _ _ _ _ _ H Hnd) as [_ Hcons].
  destruct (Hcons Hne) as (_ & Ec & El & r & Et & Hp).
  assert (Hs : sizes_eqb bv nv = false) by (eapply dict_eqb_missing; eauto).
  assert (Hkeep : keep_var b n v = false).
  { rewrite (keep_var_assoc _ _ _ _ _ Hb Hn). unfold td_keep.
    rewrite Hs. apply andb_false_r. }
  split; [|split; [|split]].
  - rewrite Ec, elem_of_filter_In. intros [_ E]. congruence.
  - eexists. split; [exact El|]. rewrite filter_about_concat by done.
    rewrite (var_msgs_assoc _ _ _ _ _ Hb Hn). unfold td_msgs.
    rewrite Hdt, Hnd', String.eqb_refl, Nat.eqb_refl, Hs. reflexivity.
  - unfold size. by rewrite Hsh.
  - exists r. split; [exact Et|]. rewrite Hp.
    apply not_true_iff_false. rewrite forallb_forall. intros Hall.
    apply list_elem_of_In in Hv. rewrite Hall in Hkeep by done. discriminate.
Qed.

Lemma renamed_dimension_disqualified_witness :
  "temp" ∉ common_vars (after (compare_variable_type_and_dims ds_G_base ds_G_new false)
                              (init ds_G_base ds_G_new)).
Proof.
  destruct (renamed_dimension_disqualified ds_G_base ds_G_new (init ds_G_base ds_G_new)
              (after (compare_variable_type_and_dims ds_G_base ds_G_new false)
                     (init ds_G_base ds_G_new))
              "temp" (v1d "float32" "x" [Some 1; Some 2]%Q) (v1d "float32" "y" [Some 1; Some 2]%Q))
    as (Hv & _).
  - apply (bool_decide_unpack _). vm_compute. exact I.
  - apply (bool_decide_unpack _). vm_compute. exact I.
  - vm_compute. reflexivity.
  - vm_compute. reflexivity.
  - vm_compute. reflexivity.
  - vm_compute. reflexivity.
  - vm_compute. reflexivity.
  - exists "x". split; apply (bool_decide_unpack _); vm_compute; exact I.
  - vm_compute. reflexivity.
  - exact Hv.
Defined.

(** C5 (amended): for each variable of the working set, Stage 2 checks the
    dtype first, then the number of dimensions, then the [.sizes] mappings
    (dimension name -> size, compared as dicts), and logs only the first
    check that fails; a variable is kept exactly when all three agree, the
    others are removed, and the stage passes exactly when every variable
    passes all three checks. *)
Theorem type_dims_stage_checks (b n : Dataset) (quiet : bool) (s s' : St) :
  wf_dataset b -> wf_dataset n -> NoDup (common_vars s) -> common_vars s <> [] ->
  compare_variable_type_and_dims b n quiet s = inr (tt, s') ->
  (forall v, v ∈ common_vars s -> exists bv nv,
     assoc v b = Some bv /\ assoc v n = Some nv /\
     (v ∈ common_vars s' <-> dtype bv = dtype nv /\ ndim bv = ndim nv /\ same_sizes bv nv) /\
     (quiet = false -> exists L, logs s' = logs s ++ L /\
        (dtype bv <> dtype nv ->
           List.filter (about v) L = [MsgDtype v (dtype bv) (dtype nv)]) /\
        (dtype bv = dtype nv -> ndim bv <> ndim nv ->
           List.filter (about v) L = [MsgNdim v (ndim bv) (ndim nv)]) /\
        (dtype bv = dtype nv -> ndim bv = ndim nv -> ~ same_sizes bv nv ->
           List.filter (about v) L = [MsgSize v (size bv) (size nv)]) /\
        (dtype bv = dtype nv -> ndim bv = ndim nv -> same_sizes bv nv ->
           List.filter (about v) L = []))) /\
  (forall v, v ∈ common_vars s' -> v ∈ common_vars s) /\
  exists r, test_results s' = test_results s ++ [("Compare Variable Types and Dimensions", r)] /\
    (pass r = true <-> forall v, v ∈ common_vars s -> exists bv nv,
       assoc v b = Some bv /\ assoc v n = Some nv /\
       dtype bv = dtype nv /\ ndim bv = ndim nv /\ same_sizes bv nv).
Proof.
  intros Hwb Hwn Hnd Hne H.
  destruct (stage2_run _ _ _ _ _ H Hnd) as [_ Hc].
  destruct (Hc Hne) as (Hin & Ec & El & r & Et & Hp).
  assert (Hkeep : forall v bv nv, assoc v b = Some bv -> assoc v n = Some nv ->
            keep_var b n v = true <-> dtype bv = dtype nv /\ ndim bv = ndim nv /\ same_sizes bv nv).
  { intros v bv nv Hb Hn. rewrite (keep_var_assoc _ _ _ _ _ Hb Hn).
    apply td_keep_spec;
      [exact (wf_dataset_assoc _ _ _ Hwb Hb) | exact (wf_dataset_assoc _ _ _ Hwn Hn)]. }
  split; [|split].
  - intros v Hv. destruct (Hin v Hv) as [[bv Hb] [nv Hn]].
    exists bv, nv. split; [done|]. split; [done|]. split.
    + rewrite Ec, elem_of_filter_In, <- (Hkeep v bv nv Hb Hn). tauto.
    + intros ->. eexists. split; [exact El|].
      rewrite filter_about_concat, (var_msgs_assoc _ _ _ _ _ Hb Hn) by done.
      apply td_msgs_cases;
        [exact (wf_dataset_assoc _ _ _ Hwb Hb) | exact (wf_dataset_assoc _ _ _ Hwn Hn)].
  - intros v Hv. rewrite Ec in Hv. by apply elem_of_filter_In in Hv as [? _].
  - exists r. split; [exact Et|]. rewrite Hp, forallb_forall. split.
    + intros Hall v Hv. destruct (Hin v Hv) as [[bv Hb] [nv Hn]].
      exists bv, nv. split; [done|]. split; [done|].
      apply (Hkeep v bv nv Hb Hn), Hall, list_elem_of_In, Hv.
    + intros Hall v Hv. apply list_elem_of_In in Hv.
      destruct (Hall v Hv) as (bv & nv & Hb & Hn & Hk).
      by apply (Hkeep v bv nv Hb Hn).
Qed.

Lemma type_dims_stage_checks_witness :
  "temp" ∉ common_vars (after (compare_variable_type_and_dims ds_B_base ds_B_new false)
                              (init ds_B_base ds_B_new)).
Proof.
  destruct (type_dims_stage_checks ds_B_base ds_B_new false (init ds_B_base ds_B_new)
              (after (compare_variable_type_and_dims ds_B_base ds_B_new false)
                     (init ds_B_base ds_B_new)))
    as (Hv & _ & _).
  - apply (bool_decide_unpack _). vm_compute. exact I.
  - apply (bool_decide_unpack _). vm_compute. exact I.
  - apply (bool_decide_unpack _). vm_compute. exact I.
  - vm_compute. discriminate.
  - vm_compute. reflexivity.
  - destruct (Hv "temp") as (bv & nv & Hb & Hn & Hiff & _).
    + apply (bool_decide_unpack _). vm_compute. exact I.
    + rewrite Hiff. vm_compute in Hb, Hn. injection Hb as <-. injection Hn as <-.
      intros [Hd _]. discriminate Hd.
Defined.



(** ** Further properties of the program *)

(** *** Completion *)

(** [c] completes, from every state. *)
Definition Total {A} (c : M A) : Prop := forall s, exists x s', c s = inr (x, s').

Lemma bind_step {A B} (c : M A) (f : A -> M B) s x s1 :
  c s = inr (x, s1) -> bind c f s = f x s1.
Proof. intros H. unfold bind. by rewrite H. Qed.

Lemma bind_get {B} (f : St -> M B) s : bind get f s = f s s.
Proof. reflexivity. Qed.

Lemma Total_ret {A} (x : A) : Total (ret x).
Proof. intros s. by exists x, s. Qed.

Lemma Total_info m : Total (info m).
Proof. intros s. eexists _, _. reflexivity. Qed.

Lemma Total_store_result d r : Total (store_result d r).
Proof. intros s. eexists _, _. reflexivity. Qed.

Lemma Total_bind {A B} (c : M A) (f : A -> M B) :
  Total c -> (forall x, Total (f x)) -> Total (bind c f).
Proof.
  intros Hc Hf s. destruct (Hc s) as (x & s1 & H1). destruct (Hf x s1) as (y & s2 & H2).
  exists y, s2. by rewrite (bind_step _ _ _ _ _ H1).
Qed.

Lemma Total_when b c : Total c -> Total (when b c).
Proof. destruct b; [done | intros _; apply Total_ret]. Qed.

Lemma Total_mapM_ {A} (f : A -> M unit) l :
  (forall x, x ∈ l -> Total (f x)) -> Total (mapM_ f l).
Proof.
  induction l as [|x l IH]; intros Hf; simpl; [apply Total_ret|].
  apply Total_bind; [apply Hf; set_solver | intros _; apply IH; set_solver].
Qed.

Lemma Total_ds_get ds v : is_Some (assoc v ds) -> Total (ds_get ds v).
Proof. intros [x Hx]. unfold ds_get. rewrite Hx. apply Total_ret. Qed.

Create HintDb total.
#[local] Hint Resolve Total_ret Total_info Total_store_result : total.

Ltac total :=
  repeat first
    [ progress eauto with total
    | apply Total_bind; [| intros ?]
    | apply Total_when
    | match goal with
      | |- Total (match ?x with _ => _ end) => destruct x
      | |- Total (if ?x then _ else _) => destruct x
      end ].

Lemma Total_log_enumerated i l : Total (log_enumerated i l).
Proof. revert i; induction l; intros i; simpl; total. Qed.
#[local] Hint Resolve Total_log_enumerated : total.

Lemma Total_compare_variable_names b n q : Total (compare_variable_names b n q).
Proof.
  unfold compare_variable_names. cbv zeta. apply Total_bind; [intros s; by exists s, s|].
  intros s. total.
Qed.

Lemma Total_check_type_and_dims b n q v :
  in_both b n v -> Total (check_type_and_dims b n q v).
Proof.
  intros [Hb Hn]. unfold check_type_and_dims.
  apply Total_bind; [by apply Total_ds_get | intros bv].
  apply Total_bind; [by apply Total_ds_get | intros nv]. total.
Qed.

Lemma Total_type_dims_loop b n q vs :
  (forall v, v ∈ vs -> in_both b n v) -> Total (type_dims_loop b n q vs).
Proof.
  induction vs as [|v vs IH]; intros Hin; simpl; [apply Total_ret|].
  apply Total_bind; [apply Total_check_type_and_dims; set_solver | intros r].
  apply Total_bind; [apply IH; set_solver | intros rest]. apply Total_ret.
Qed.

Lemma py_remove_total rs s :
  NoDup (common_vars s) -> NoDup rs -> (forall r, r ∈ rs -> r ∈ common_vars s) ->
  exists s', mapM_ py_remove rs s = inr (tt, s').
Proof.
  revert s. induction rs as [|r rs IH]; intros s Hnd Hrs Hin; simpl; [by exists s|].
  apply NoDup_cons in Hrs as [Hr Hrs].
  assert (H1 : py_remove r s =
    inr (tt, mkSt (List.filter (fun y => negb (String.eqb r y)) (common_vars s))
                  (test_results s) (logs s))).
  { unfold py_remove. rewrite bind_get. rewrite list_remove_nodup by (done || set_solver).
    reflexivity. }
  rewrite (bind_step _ _ _ _ _ H1). apply IH; cbn [common_vars].
  - by apply NoDup_list_filter.
  - done.
  - intros r' Hr'. apply elem_of_filter_In. split; [set_solver|].
    apply negb_true_iff, String.eqb_neq. intros ->. done.
Qed.

Lemma compare_variable_type_and_dims_total b n q s :
  NoDup (common_vars s) -> (forall v, v ∈ common_vars s -> in_both b n v) ->
  exists s', compare_variable_type_and_dims b n q s = inr (tt, s').
Proof.
  intros Hnd Hin. unfold compare_variable_type_and_dims. rewrite bind_get.
  destruct (common_vars s) as [|c cs] eqn:Ec; [eexists; reflexivity|].
  destruct (Total_type_dims_loop b n q (c :: cs) Hin s) as (rv & s2 & Hl).
  rewrite (bind_step _ _ _ _ _ Hl).
  pose proof Hl as Hl'. apply type_dims_loop_run in Hl' as (_ & Erv & Es2).
  destruct rv as [|x xs]; [eexists; reflexivity|].
  destruct (py_remove_total (x :: xs) s2) as [s3 H3].
  - subst s2. unfold with_logs; cbn [common_vars]. by rewrite Ec.
  - rewrite Erv. by apply NoDup_list_filter.
  - intros r Hr. subst s2. unfold with_logs; cbn [common_vars]. rewrite Ec.
    rewrite Erv in Hr. by apply elem_of_filter_In in Hr as [? _].
  - rewrite (bind_step _ _ _ _ _ H3). eexists. reflexivity.
Qed.

Lemma Total_get_metadata_differences ba na : Total (get_metadata_differences ba na).
Proof.
  unfold get_metadata_differences. apply Total_bind.
  - apply Total_when, Total_bind; [| intros _]; apply Total_mapM_; intros; apply Total_info.
  - intros _. apply Total_mapM_. intros k Hk. apply elem_of_filter_In in Hk as [Hb Hn].
    apply mem_spec, elem_of_keys_assoc in Hn. apply elem_of_keys_assoc in Hb.
    destruct (assoc k ba), (assoc k na); try done. total.
Qed.
#[local] Hint Resolve Total_get_metadata_differences : total.

Lemma Total_metadata_loop b n q vs :
  (forall v, v ∈ vs -> in_both b n v) -> Total (metadata_loop b n q vs).
Proof.
  induction vs as [|v vs IH]; intros Hin; simpl; [apply Total_ret|].
  destruct (Hin v ltac:(set_solver)) as [Hb Hn].
  apply Total_bind; [by apply Total_ds_get | intros bv].
  apply Total_bind; [by apply Total_ds_get | intros nv].
  apply Total_bind; [total | intros k].
  apply Total_bind; [apply IH; set_solver | intros rest]. apply Total_ret.
Qed.

Lemma compare_metadata_total b n q s :
  (forall v, v ∈ common_vars s -> in_both b n v) ->
  exists s', compare_metadata b n q s = inr (tt, s').
Proof.
  intros Hin. unfold compare_metadata. rewrite bind_get.
  destruct (common_vars s) as [|c cs] eqn:Ec; [eexists; reflexivity|].
  destruct (Total_metadata_loop b n q (c :: cs) Hin s) as (k & s2 & Hl).
  rewrite (bind_step _ _ _ _ _ Hl). destruct (negb (Nat.eqb k 0)); eexists; reflexivity.
Qed.

Lemma Total_get_value_differences b n dt :
  masks_differ b n <> None -> Total (get_value_differences b n dt).
Proof.
  intros Hm. unfold get_value_differences.
  destruct (masks_differ b n); [|done]. total.
Qed.

Lemma get_value_differences_raises b n dt s :
  masks_differ b n = None -> get_value_differences b n dt s = inl ValueError.
Proof. intros Hm. unfold get_value_differences, bind. cbn. by rewrite Hm. Qed.

Lemma Total_bind_ret {A B} (x : A) (f : A -> M B) : Total (f x) -> Total (bind (ret x) f).
Proof. intros H s. exact (H s). Qed.

Lemma Total_values_loop b n q vs :
  (forall v, v ∈ vs -> in_both b n v) ->
  (q = false -> forall v bv nv, assoc v b = Some bv -> assoc v n = Some nv ->
     da_equals b n bv nv = false -> masks_differ (data bv) (data nv) <> None) ->
  Total (values_loop b n q vs).
Proof.
  intros Hin Hm. induction vs as [|v vs IH]; simpl; [apply Total_ret|].
  destruct (Hin v ltac:(set_solver)) as [[bv Hb] [nv Hn]].
  unfold ds_get at 1. rewrite Hb. apply Total_bind_ret.
  unfold ds_get at 1. rewrite Hn. apply Total_bind_ret.
  apply Total_bind; [| intros k; apply Total_bind; [apply IH; set_solver | intros; apply Total_ret]].
  destruct (da_equals b n bv nv) eqn:Eq; simpl; [apply Total_ret|].
  apply Total_bind; [| intros; apply Total_ret].
  destruct q; cbn [negb when]; [apply Total_ret|].
  apply Total_bind; [apply Total_info | intros _].
  apply Total_get_value_differences. eapply Hm; eauto.
Qed.

Lemma compare_values_total b n q s :
  (forall v, v ∈ common_vars s -> in_both b n v) ->
  (q = false -> forall v bv nv, assoc v b = Some bv -> assoc v n = Some nv ->
     da_equals b n bv nv = false -> masks_differ (data bv) (data nv) <> None) ->
  exists s', compare_values b n q s = inr (tt, s').
Proof.
  intros Hin Hm. unfold compare_values. rewrite bind_get.
  destruct (common_vars s) as [|c cs] eqn:Ec; [eexists; reflexivity|].
  destruct (Total_values_loop b n q (c :: cs) Hin Hm s) as (k & s2 & Hl).
  rewrite (bind_step _ _ _ _ _ Hl). destruct (negb (Nat.eqb k 0)); eexists; reflexivity.
Qed.

(** *** [parse_results] *)

(** A test result that [parse_results] can print in quiet mode: a failing
    result carries its ["fail_msg"]. *)
Definition good_result (p : string * test_result) : Prop :=
  pass p.2 = false -> is_Some (fail_msg p.2).

(** The summary line printed for a result. *)
Definition summary_ok (quiet : bool) (p : string * test_result) (line : string) : Prop :=
  (quiet = false -> line = result p.2) /\
  (quiet = true -> pass p.2 = true -> line = p.1 +:+ ": PASS") /\
  (quiet = true -> pass p.2 = false ->
     exists m, fail_msg p.2 = Some m /\ line = p.1 +:+ ": FAIL (" +:+ m +:+ ")").

Lemma parse_loop_run q i rs s k s' :
  parse_loop q i rs s = inr (k, s') ->
  k = length (List.filter (fun p => negb (pass p.2)) rs) /\
  exists lines, Forall2 (summary_ok q) rs lines /\
    s' = with_logs s (zip_with MsgSummary (seq (S i) (length rs)) lines).
Proof.
  revert i s k. induction rs as [|[d r] rs IH]; intros i s k H; simpl in H.
  - injection H as <- <-. split; [done|]. exists []. split; [constructor|].
    by rewrite with_logs_nil.
  - apply bind_inr in H as (line & s1 & Hl & H).
    assert (Hline : summary_ok q (d, r) line /\ s1 = s).
    { unfold summary_ok; cbn [fst snd].
      destruct q, (pass r) eqn:Ep; [| destruct (fail_msg r) as [m|] eqn:Ef | |];
        cbn in Hl; try discriminate Hl; injection Hl as <- <-;
        split_and!; intros; try done; eauto. }
    destruct Hline as [Hline ->].
    apply bind_inr in H as ([] & s2 & Hi & H). injection Hi as <-.
    apply bind_inr in H as (k2 & s3 & Hr & H). injection H as <- <-.
    apply IH in Hr as (-> & lines & Hf & ->).
    split; [simpl; by destruct (pass r)|].
    exists (line :: lines). split; [by constructor|].
    unfold with_logs; cbn. by rewrite <- app_assoc.
Qed.

Lemma Total_parse_loop q i rs :
  (q = false \/ Forall good_result rs) -> Total (parse_loop q i rs).
Proof.
  revert i. induction rs as [|[d r] rs IH]; intros i Hq; simpl; [apply Total_ret|].
  apply Total_bind.
  - destruct q; [|apply Total_ret]. destruct (pass r) eqn:Ep; [apply Total_ret|].
    destruct Hq as [|Hg]; [discriminate|]. apply Forall_cons in Hg as [Hg _].
    destruct (Hg Ep) as [m Hm]. cbn in Hm. rewrite Hm. apply Total_ret.
  - intros line. apply Total_bind; [apply Total_info | intros _].
    apply Total_bind; [| intros; apply Total_ret]. apply IH.
    destruct Hq as [|Hg]; [by left | right]. by apply Forall_cons in Hg as [_ ?].
Qed.

Lemma parse_loop_keyerror i rs s :
  (exists p, p ∈ rs /\ pass p.2 = false /\ fail_msg p.2 = None) ->
  parse_loop true i rs s = inl KeyError.
Proof.
  revert i s. induction rs as [|[d r] rs IH]; intros i s (p & Hp & Hpass & Hmsg).
  { inversion Hp. }
  simpl. unfold bind at 1.
  destruct (pass r) eqn:Ep; [| destruct (fail_msg r) as [m|] eqn:Ef]; cbn; try done.
  all: apply elem_of_cons in Hp as [->|Hp]; cbn in *; try congruence.
  all: unfold bind at 1; rewrite (IH (S i) _ (ex_intro _ p (conj Hp (conj Hpass Hmsg)))); done.
Qed.

(** *** Results that parse in quiet mode *)

Definition KeepsGood {A} (c : M A) : Prop :=
  forall s x s', c s = inr (x, s') ->
  Forall good_result (test_results s) -> Forall good_result (test_results s').

Lemma LogOnly_KeepsGood {A} (c : M A) : LogOnly c -> KeepsGood c.
Proof. intros H s x s' Hc Hg. destruct (H _ _ _ Hc) as [L ->]. exact Hg. Qed.

Lemma KeepsGood_get : KeepsGood get.
Proof. intros s x s' H Hg. by injection H as _ <-. Qed.

Lemma KeepsGood_bind {A B} (c : M A) (f : A -> M B) :
  KeepsGood c -> (forall x, KeepsGood (f x)) -> KeepsGood (bind c f).
Proof.
  intros Hc Hf s y s' H Hg. apply bind_inr in H as (x & s1 & H1 & H2).
  eapply Hf; [exact H2|]. eapply Hc; [exact H1 | exact Hg].
Qed.

Lemma KeepsGood_when b c : KeepsGood c -> KeepsGood (when b c).
Proof. destruct b; [done|]. intros _. apply LogOnly_KeepsGood, LogOnly_ret. Qed.

Lemma KeepsGood_mapM_ {A} (f : A -> M unit) l : (forall x, KeepsGood (f x)) -> KeepsGood (mapM_ f l).
Proof.
  intros Hf. induction l as [|x l IH]; simpl; [apply LogOnly_KeepsGood, LogOnly_ret|].
  by apply KeepsGood_bind.
Qed.

Lemma KeepsGood_store d r : good_result (d, r) -> KeepsGood (store_result d r).
Proof.
  intros Hr s x s' H Hg. injection H as _ <-. cbn.
  apply Forall_app. split; [done|]. by apply Forall_singleton.
Qed.

Lemma KeepsGood_py_remove x : KeepsGood (py_remove x).
Proof.
  intros s y s' H Hg. unfold py_remove in H. rewrite bind_get in H.
  destruct (list_remove x (common_vars s)); [|discriminate]. by injection H as _ <-.
Qed.

Create HintDb keepsgood.
#[local] Hint Resolve KeepsGood_get KeepsGood_py_remove : keepsgood.

Ltac keepsgood :=
  repeat first
    [ progress eauto with keepsgood
    | solve [apply LogOnly_KeepsGood; logonly]
    | apply KeepsGood_bind; [| intros ?]
    | apply KeepsGood_when
    | apply KeepsGood_mapM_; intros ?
    | apply KeepsGood_store; unfold good_result; cbn; intros ?;
      first [discriminate | eexists; reflexivity]
    | match goal with
      | |- KeepsGood (match ?x with _ => _ end) => destruct x
      | |- KeepsGood (if ?x then _ else _) => destruct x
      end ].

Lemma KeepsGood_compare_variable_names b n q : KeepsGood (compare_variable_names b n q).
Proof. unfold compare_variable_names. cbv zeta. keepsgood. Qed.

Lemma KeepsGood_compare_variable_type_and_dims b n q :
  KeepsGood (compare_variable_type_and_dims b n q).
Proof. unfold compare_variable_type_and_dims. keepsgood. Qed.

Lemma KeepsGood_compare_metadata b n q : KeepsGood (compare_metadata b n q).
Proof. unfold compare_metadata. keepsgood. Qed.

Lemma KeepsGood_compare_values b n q : KeepsGood (compare_values b n q).
Proof. unfold compare_values. keepsgood. Qed.

(** *** Runs, stage by stage *)

Lemma run_inv b n q k s :
  run b n q = inr (k, s) ->
  exists s1 s2 s3 s4,
    compare_variable_names b n q (init b n) = inr (tt, s1) /\
    compare_variable_type_and_dims b n q s1 = inr (tt, s2) /\
    compare_metadata b n q s2 = inr (tt, s3) /\
    compare_values b n q s3 = inr (tt, s4) /\
    parse_results q (with_logs s4 [MsgSummaryHeader]) = inr (k, s).
Proof.
  unfold run, main_body. intros H.
  apply bind_inr in H as ([] & s1 & H1 & H).
  apply bind_inr in H as ([] & s2 & H2 & H).
  apply bind_inr in H as ([] & s3 & H3 & H).
  apply bind_inr in H as ([] & s4 & H4 & H).
  apply bind_inr in H as ([] & s5 & H5 & H). injection H5 as <-.
  by exists s1, s2, s3, s4.
Qed.

(** [main_body] from the states between the stages. *)
Lemma run_intro b n q s1 s2 s3 s4 :
  compare_variable_names b n q (init b n) = inr (tt, s1) ->
  compare_variable_type_and_dims b n q s1 = inr (tt, s2) ->
  compare_metadata b n q s2 = inr (tt, s3) ->
  compare_values b n q s3 = inr (tt, s4) ->
  run b n q = parse_results q (with_logs s4 [MsgSummaryHeader]).
Proof.
  intros H1 H2 H3 H4. unfold run, main_body.
  rewrite (bind_step _ _ _ _ _ H1), (bind_step _ _ _ _ _ H2), (bind_step _ _ _ _ _ H3),
    (bind_step _ _ _ _ _ H4). reflexivity.
Qed.

(** *** Quiet and verbose runs *)

Definition same_but_logs (s t : St) : Prop :=
  common_vars s = common_vars t /\ test_results s = test_results t.

(** Whenever [c1] completes, [c2] completes from a state that differs only
    in its log, with the same value and a state that again differs only in
    its log. *)
Definition Sim {A} (c1 c2 : M A) : Prop :=
  forall s t x s', c1 s = inr (x, s') -> same_but_logs s t ->
  exists t', c2 t = inr (x, t') /\ same_but_logs s' t'.

Lemma Sim_bind {A B} (c1 c2 : M A) (f1 f2 : A -> M B) :
  Sim c1 c2 -> (forall x, Sim (f1 x) (f2 x)) -> Sim (bind c1 f1) (bind c2 f2).
Proof.
  intros Hc Hf s t y s' H Hst. apply bind_inr in H as (x & s1 & H1 & H2).
  destruct (Hc _ _ _ _ H1 Hst) as (t1 & E1 & Hst1).
  destruct (Hf _ _ _ _ _ H2 Hst1) as (t2 & E2 & Hst2).
  exists t2. split; [by rewrite (bind_step _ _ _ _ _ E1) | done].
Qed.

Lemma Sim_ret {A} (x : A) : Sim (ret x) (ret x).
Proof. intros s t y s' H Hst. injection H as <- <-. by exists t. Qed.

Lemma Sim_raise {A} e (c : M A) : Sim (raise e) c.
Proof. intros s t y s' H. discriminate. Qed.

Lemma Sim_info m : Sim (info m) (info m).
Proof. intros s t y s' H [Hc Hr]. injection H as <- <-. eexists. split; [reflexivity|]. done. Qed.

Lemma Sim_logonly (c : M unit) : LogOnly c -> Sim c (ret tt).
Proof.
  intros Hc s t [] s' H Hst. destruct (Hc _ _ _ H) as [L ->]. by exists t.
Qed.

Lemma Sim_store d r : Sim (store_result d r) (store_result d r).
Proof.
  intros s t y s' H [Hc Hr]. injection H as <- <-. eexists. split; [reflexivity|].
  split; cbn; congruence.
Qed.

Lemma Sim_ds_get ds v : Sim (ds_get ds v) (ds_get ds v).
Proof. unfold ds_get. destruct (assoc v ds); [apply Sim_ret | apply Sim_raise]. Qed.

Lemma Sim_get {B} (f1 f2 : St -> M B) :
  (forall s t, same_but_logs s t -> Sim (f1 s) (f2 t)) -> Sim (bind get f1) (bind get f2).
Proof.
  intros Hf s t y s' H Hst. rewrite bind_get in H. rewrite bind_get.
  exact (Hf s t Hst _ _ _ _ H Hst).
Qed.

Lemma Sim_mapM_ {A} (f1 f2 : A -> M unit) l :
  (forall x, Sim (f1 x) (f2 x)) -> Sim (mapM_ f1 l) (mapM_ f2 l).
Proof. intros Hf. induction l; simpl; [apply Sim_ret | by apply Sim_bind]. Qed.

Lemma Sim_py_remove x : Sim (py_remove x) (py_remove x).
Proof.
  apply Sim_get. intros s t [Hc Hr]. rewrite Hc.
  destruct (list_remove x (common_vars t)); [|apply Sim_raise].
  intros s1 t1 y s' H [Hc1 Hr1]. injection H as <- <-. eexists. split; [reflexivity|].
  split; cbn; congruence.
Qed.

Create HintDb sim.
#[local] Hint Resolve Sim_ret Sim_raise Sim_info Sim_store Sim_ds_get Sim_py_remove : sim.

Ltac sim :=
  repeat first
    [ progress eauto with sim
    | apply Sim_bind; [| intros ?]
    | apply Sim_mapM_; intros ?
    | match goal with
      | |- Sim (when (negb false) _) (when (negb true) _) =>
          cbn [negb when]; apply Sim_logonly; logonly
      | |- Sim (when true _) (when false _) =>
          cbn [when]; apply Sim_logonly; logonly
      | |- Sim _ (ret tt) => solve [apply Sim_logonly; logonly]
      | |- Sim (match ?x with _ => _ end) (match ?x with _ => _ end) => destruct x
      | |- Sim (if ?x then _ else _) (if ?x then _ else _) => destruct x
      end ].

Lemma Sim_compare_variable_names b n :
  Sim (compare_variable_names b n false) (compare_variable_names b n true).
Proof.
  unfold compare_variable_names. cbv zeta. apply Sim_get. intros s t [Hc _].
  rewrite Hc. sim.
Qed.

Lemma Sim_type_dims_loop b n vs :
  Sim (type_dims_loop b n false vs) (type_dims_loop b n true vs).
Proof.
  induction vs; simpl; [apply Sim_ret|]. apply Sim_bind; [|intros; sim].
  unfold check_type_and_dims. sim.
Qed.
#[local] Hint Resolve Sim_type_dims_loop : sim.

Lemma Sim_compare_variable_type_and_dims b n :
  Sim (compare_variable_type_and_dims b n false) (compare_variable_type_and_dims b n true).
Proof.
  unfold compare_variable_type_and_dims. apply Sim_get. intros s t [Hc _].
  rewrite Hc. sim.
Qed.

Lemma Sim_metadata_loop b n vs :
  Sim (metadata_loop b n false vs) (metadata_loop b n true vs).
Proof. induction vs; simpl; sim. Qed.
#[local] Hint Resolve Sim_metadata_loop : sim.

Lemma Sim_compare_metadata b n :
  Sim (compare_metadata b n false) (compare_metadata b n true).
Proof.
  unfold compare_metadata. apply Sim_get. intros s t [Hc _]. rewrite Hc. sim.
Qed.

Lemma Sim_values_loop b n vs :
  Sim (values_loop b n false vs) (values_loop b n true vs).
Proof. induction vs; simpl; sim. Qed.
#[local] Hint Resolve Sim_values_loop : sim.

Lemma Sim_compare_values b n :
  Sim (compare_values b n false) (compare_values b n true).
Proof.
  unfold compare_values. apply Sim_get. intros s t [Hc _]. rewrite Hc. sim.
Qed.

(** *** The results the stages store *)

(** Whether [compare_metadata] counts [v] as failing. *)
Definition attr_diff (b n : Dataset) (v : string) : bool :=
  match assoc v b, assoc v n with Some bv, Some nv => attrs_neqb bv nv | _, _ => false end.

Lemma metadata_loop_run b n q vs s k s' :
  metadata_loop b n q vs s = inr (k, s') ->
  (forall v, v ∈ vs -> in_both b n v) /\
  k = length (List.filter (attr_diff b n) vs) /\
  exists L, s' = with_logs s L.
Proof.
  revert s k. induction vs as [|v vs IH]; intros s k H; simpl in H.
  - injection H as <- <-. split; [set_solver|]. split; [done|].
    exists []. by rewrite with_logs_nil.
  - apply bind_inr in H as (bv & s1 & H1 & H). unfold ds_get in H1.
    destruct (assoc v b) as [bv'|] eqn:Eb; [|discriminate]. injection H1 as <- <-.
    apply bind_inr in H as (nv & s1 & H1 & H). unfold ds_get in H1.
    destruct (assoc v n) as [nv'|] eqn:En; [|discriminate]. injection H1 as <- <-.
    apply bind_inr in H as (k1 & s3 & Hk & H).
    apply bind_inr in H as (k2 & s4 & Hr & H). injection H as <- <-.
    apply IH in Hr as (Hin & -> & L2 & ->).
    assert (Hv : attr_diff b n v = attrs_neqb bv' nv') by (unfold attr_diff; by rewrite Eb, En).
    assert (Hk' : k1 = (if attr_diff b n v then 1 else 0) /\ exists L1, s3 = with_logs s L1).
    { rewrite Hv. destruct (attrs_neqb bv' nv'); cbn in Hk.
      - apply bind_inr in Hk as ([] & s5 & Hw & Hk). injection Hk as <- <-.
        split; [done|]. eapply LogOnly_when; [|exact Hw]. logonly.
      - injection Hk as <- <-. split; [done|]. exists []. by rewrite with_logs_nil. }
    destruct Hk' as [-> [L1 ->]].
    split.
    + intros x Hx. apply elem_of_cons in Hx as [->|Hx]; [|auto].
      split; eexists; [exact Eb | exact En].
    + split; [simpl; by destruct (attr_diff b n v)|].
      exists (L1 ++ L2). apply with_logs_app.
Qed.

Lemma stage3_run b n q s s' :
  compare_metadata b n q s = inr (tt, s') ->
  common_vars s' = common_vars s /\
  (common_vars s = [] -> test_results s' = test_results s) /\
  (common_vars s <> [] ->
   (forall v, v ∈ common_vars s -> in_both b n v) /\
   exists r, test_results s' = test_results s ++ [("Compare Metadata", r)] /\
     pass r = Nat.eqb (length (List.filter (attr_diff b n) (common_vars s))) 0 /\
     fail_msg r = if pass r then None
                  else Some (pass_msg (length (common_vars s) -
                                       length (List.filter (attr_diff b n) (common_vars s)))
                                      (length (common_vars s)))).
Proof.
  intros H. unfold compare_metadata in H. rewrite bind_get in H.
  destruct (common_vars s) as [|c cs] eqn:Ec.
  - injection H as <-. cbn. rewrite Ec. split; [done|]. split; [done|]. congruence.
  - apply bind_inr in H as (k & s2 & Hl & H).
    apply metadata_loop_run in Hl as (Hin & -> & L & ->).
    destruct (Nat.eqb _ 0) eqn:Ek; cbn in H; injection H as <-; cbn; rewrite Ec;
      (split; [done|]); (split; [discriminate|]); intros _; (split; [done|]);
      eexists; (split; [reflexivity|]); cbn; done.
Qed.

Lemma stage4_result b n q s s' :
  compare_values b n q s = inr (tt, s') ->
  (common_vars s = [] -> test_results s' = test_results s) /\
  (common_vars s <> [] ->
   exists r, test_results s' = test_results s ++ [("Compare Values", r)] /\
     pass r = Nat.eqb (length (List.filter (fun v => negb (eq_var b n v)) (common_vars s))) 0 /\
     fail_msg r = if pass r then None
                  else Some (pass_msg (length (common_vars s) -
                               length (List.filter (fun v => negb (eq_var b n v)) (common_vars s)))
                                      (length (common_vars s)))).
Proof.
  intros H. unfold compare_values in H. rewrite bind_get in H.
  destruct (common_vars s) as [|c cs] eqn:Ec.
  - injection H as <-. cbn. split; [done|]. congruence.
  - apply bind_inr in H as (k & s2 & Hl & H).
    apply values_loop_run in Hl as (Hin & -> & L & ->).
    destruct (Nat.eqb _ 0) eqn:Ek; cbn in H; injection H as <-; cbn; rewrite ?Ec;
      (split; [discriminate|]); intros _;
      eexists; (split; [reflexivity|]); cbn; done.
Qed.

Lemma stage2_result b n q s s' :
  compare_variable_type_and_dims b n q s = inr (tt, s') ->
  NoDup (common_vars s) -> common_vars s <> [] ->
  exists r, test_results s' = test_results s ++ [("Compare Variable Types and Dimensions", r)] /\
    fail_msg r = if pass r then None
                 else Some (pass_msg (length (common_vars s')) (length (common_vars s))).
Proof.
  intros H Hnd Hne.
  destruct (stage2_run _ _ _ _ _ H Hnd) as [_ Hc].
  destruct (Hc Hne) as (_ & Ec' & _ & _ & _). clear Hc. rewrite Ec'.
  unfold compare_variable_type_and_dims in H. rewrite bind_get in H.
  destruct (common_vars s) as [|c cs] eqn:Ec; [done|].
  apply bind_inr in H as (rv & s2 & Hl & H).
  apply type_dims_loop_run in Hl as (Hin & -> & ->).
  destruct (List.filter (fun v => negb (keep_var b n v)) (c :: cs)) as [|x xs] eqn:Ef.
  - injection H as <-. eexists. split; [reflexivity|]. done.
  - apply bind_inr in H as ([] & s3 & H3 & H). injection H as <-.
    rewrite <- Ef in H3.
    apply py_remove_all in H3; unfold with_logs in *; cbn [common_vars test_results logs] in *.
    2: { by rewrite Ec. }
    2: { apply NoDup_list_filter. done. }
    2: { intros r Hr. apply elem_of_filter_In in Hr as [Hr _]. by rewrite Ec. }
    subst s3. pose proof (filter_length_split (keep_var b n) (c :: cs)) as Hs.
    rewrite Ef in Hs. set (K := List.filter (keep_var b n) (c :: cs)) in *. clearbody K.
    cbn. eexists. split; [reflexivity|]. cbn. do 3 f_equal.
    cbn [length] in Hs |- *. lia.
Qed.

(** *** The working set between the stages *)

Lemma init_nodup b n : NoDup (ds_vars b) -> NoDup (common_vars (init b n)).
Proof. intros H. unfold init; cbn. by apply NoDup_list_filter. Qed.

Lemma init_in_both b n v : v ∈ common_vars (init b n) -> in_both b n v.
Proof.
  rewrite elem_of_init_common. unfold ds_vars. intros [Hb Hn].
  split; apply not_eq_None_Some; by apply elem_of_keys_assoc.
Qed.

Lemma stage2_common_sub b n q s s' :
  compare_variable_type_and_dims b n q s = inr (tt, s') -> NoDup (common_vars s) ->
  NoDup (common_vars s') /\ (forall v, v ∈ common_vars s' -> v ∈ common_vars s).
Proof.
  intros H Hnd. destruct (stage2_run _ _ _ _ _ H Hnd) as [H0 H1].
  destruct (decide (common_vars s = [])) as [Ec|Ec].
  - rewrite (H0 Ec). unfold with_logs; cbn. done.
  - destruct (H1 Ec) as (_ & -> & _). split; [by apply NoDup_list_filter|].
    intros v Hv. by apply elem_of_filter_In in Hv as [? _].
Qed.

Lemma run_good b n q s1 s2 s3 s4 :
  compare_variable_names b n q (init b n) = inr (tt, s1) ->
  compare_variable_type_and_dims b n q s1 = inr (tt, s2) ->
  compare_metadata b n q s2 = inr (tt, s3) ->
  compare_values b n q s3 = inr (tt, s4) ->
  Forall good_result (test_results s4).
Proof.
  intros H1 H2 H3 H4.
  eapply KeepsGood_compare_values; [exact H4|].
  eapply KeepsGood_compare_metadata; [exact H3|].
  eapply KeepsGood_compare_variable_type_and_dims; [exact H2|].
  eapply KeepsGood_compare_variable_names; [exact H1|].
  constructor.
Qed.

(** ** Properties of [parse_results] *)

(** [parse_results] returns the number of failing tests and prints, for
    each stored result in order, the line "(i) ..." numbered from 1. *)
Theorem parse_results_summary q s k s' :
  parse_results q s = inr (k, s') ->
  k = length (List.filter (fun p => negb (pass p.2)) (test_results s)) /\
  exists lines, Forall2 (summary_ok q) (test_results s) lines /\
    s' = with_logs s (zip_with MsgSummary (seq 1 (length (test_results s))) lines).
Proof. unfold parse_results. rewrite bind_get. apply parse_loop_run. Qed.

Lemma parse_results_summary_witness :
  exists k s',
    parse_results true (mkSt [] [("Compare Variable Names", mkResult true "All 2 variables match" None);
                                 ("Compare Values", mkResult false "Values differ" (Some "1/2 pass"))] []) = inr (k, s') /\
    k = length (List.filter (fun p => negb (pass p.2))
                 [("Compare Variable Names", mkResult true "All 2 variables match" None);
                  ("Compare Values", mkResult false "Values differ" (Some "1/2 pass"))]).
Proof.
  destruct (parse_results true (mkSt [] [("Compare Variable Names", mkResult true "All 2 variables match" None);
                                 ("Compare Values", mkResult false "Values differ" (Some "1/2 pass"))] []))
    as [e|[k s']] eqn:E; [vm_compute in E; discriminate|].
  exists k, s'. split; [done|].
  exact (proj1 (parse_results_summary _ _ _ _ E)).
Defined.

Lemma good_or_bad (rs : list (string * test_result)) :
  Forall good_result rs \/ exists p, p ∈ rs /\ pass p.2 = false /\ fail_msg p.2 = None.
Proof.
  induction rs as [|[d r] rs [IH|(p & Hp & Hp1 & Hp2)]].
  - left. constructor.
  - destruct (pass r) eqn:Ep; [| destruct (fail_msg r) as [m|] eqn:Em].
    + left. constructor; [intros H; cbn in H; congruence | done].
    + left. constructor; [intros _; cbn; rewrite Em; by eexists | done].
    + right. exists (d, r). split; [set_solver | done].
  - right. exists p. split; [set_solver | done].
Qed.

(** [parse_results] fails only in quiet mode, with KeyError, exactly when
    a failing result has no ["fail_msg"]; otherwise it completes. *)
Theorem parse_results_outcome q s :
  match parse_results q s with
  | inl e => e = KeyError /\ q = true /\
             exists p, p ∈ test_results s /\ pass p.2 = false /\ fail_msg p.2 = None
  | inr _ => q = false \/ Forall good_result (test_results s)
  end.
Proof.
  unfold parse_results. rewrite bind_get.
  destruct q.
  - destruct (good_or_bad (test_results s)) as [Hg|Hb].
    + destruct (Total_parse_loop true 0 (test_results s) (or_intror Hg) s) as (k & s' & ->).
      by right.
    + rewrite (parse_loop_keyerror 0 _ s Hb). done.
  - destruct (Total_parse_loop false 0 (test_results s) (or_introl eq_refl) s) as (k & s' & ->).
    by left.
Qed.

(** ** Properties of a whole run *)

Lemma run_total b n q :
  NoDup (ds_vars b) ->
  (q = false -> forall v bv nv, assoc v b = Some bv -> assoc v n = Some nv ->
     da_equals b n bv nv = false -> masks_differ (data bv) (data nv) <> None) ->
  exists k s, run b n q = inr (k, s).
Proof.
  intros Hnd Hm.
  destruct (Total_compare_variable_names b n q (init b n)) as ([] & s1 & H1).
  destruct (stage1_run _ _ _ _ _ H1) as [E1 _].
  assert (Hnd1 : NoDup (common_vars s1)) by (rewrite E1; by apply init_nodup).
  destruct (compare_variable_type_and_dims_total b n q s1 Hnd1) as [s2 H2].
  { intros v Hv. rewrite E1 in Hv. by apply init_in_both. }
  destruct (stage2_common_sub _ _ _ _ _ H2 Hnd1) as [_ Hsub].
  assert (Hin2 : forall v, v ∈ common_vars s2 -> in_both b n v).
  { intros v Hv. apply init_in_both. rewrite <- E1. by apply Hsub. }
  destruct (compare_metadata_total b n q s2 Hin2) as [s3 H3].
  assert (Hin3 : forall v, v ∈ common_vars s3 -> in_both b n v).
  { by rewrite (stage3_common _ _ _ _ _ H3). }
  destruct (compare_values_total b n q s3 Hin3 Hm) as [s4 H4].
  rewrite (run_intro _ _ _ _ _ _ _ H1 H2 H3 H4).
  unfold parse_results. rewrite bind_get.
  refine (Total_parse_loop q 0 _ _ _).
  destruct q; [right | by left].
  exact (run_good _ _ _ _ _ _ _ H1 H2 H3 H4).
Qed.



(** A quiet run gives the same exit count as the verbose run, with the
    same working set and the same stored results; only the log differs. *)
Theorem quiet_run_same_count b n k s :
  run b n false = inr (k, s) ->
  exists t, run b n true = inr (k, t) /\ same_but_logs s t.
Proof.
  intros H. destruct (run_inv _ _ _ _ _ H) as (s1 & s2 & s3 & s4 & H1 & H2 & H3 & H4 & H5).
  assert (Hr : same_but_logs (init b n) (init b n)) by done.
  destruct (Sim_compare_variable_names b n _ _ _ _ H1 Hr) as (t1 & H1' & R1).
  destruct (Sim_compare_variable_type_and_dims b n _ _ _ _ H2 R1) as (t2 & H2' & R2).
  destruct (Sim_compare_metadata b n _ _ _ _ H3 R2) as (t3 & H3' & R3).
  destruct (Sim_compare_values b n _ _ _ _ H4 R3) as (t4 & H4' & [Rc Rt]).
  rewrite (run_intro _ _ _ _ _ _ _ H1' H2' H3' H4').
  pose proof (run_good _ _ _ _ _ _ _ H1 H2 H3 H4) as Hg.
  unfold parse_results in *. rewrite bind_get in *.
  assert (Hg' : Forall good_result (test_results (with_logs t4 [MsgSummaryHeader])))
    by (unfold with_logs; cbn; by rewrite <- Rt).
  destruct (Total_parse_loop true 0 _ (or_intror Hg') (with_logs t4 [MsgSummaryHeader]))
    as (k' & t & Ht).
  exists t. rewrite Ht.
  apply parse_loop_run in H5 as (Hk & l1 & _ & ->).
  apply parse_loop_run in Ht as (Hk' & l2 & _ & ->).
  unfold with_logs in *; cbn in *. rewrite Hk, Hk', Rt, Rc. done.
Qed.

Lemma quiet_run_same_count_witness :
  exists k s, run ds_B_base ds_B_new false = inr (k, s) /\
  exists t, run ds_B_base ds_B_new true = inr (k, t) /\ same_but_logs s t.
Proof.
  destruct (run ds_B_base ds_B_new false) as [e|[k s]] eqn:E; [vm_compute in E; discriminate|].
  exists k, s. split; [done|].
  exact (quiet_run_same_count _ _ _ _ E).
Defined.

(** ** Properties of the stages *)

Ltac decide_closed := apply (bool_decide_unpack _); vm_compute; exact I.

Lemma filter_nil_iff {A} (f : A -> bool) (l : list A) :
  List.filter f l = [] <-> forall x, x ∈ l -> f x = false.
Proof.
  split; [|apply filter_all_false].
  intros H x Hx. destruct (f x) eqn:Ef; [|done].
  assert (Hf : x ∈ List.filter f l) by (by apply elem_of_filter_In).
  rewrite H in Hf. inversion Hf.
Qed.

Lemma filter_id_iff {A} (f : A -> bool) (l : list A) :
  List.filter f l = l <-> forallb f l = true.
Proof.
  split.
  - intros Hf. apply forallb_forall. intros x Hx.
    assert (Hx' : x ∈ List.filter f l) by (rewrite Hf; by apply list_elem_of_In).
    by apply elem_of_filter_In in Hx' as [_ ?].
  - intros Hall. apply filter_all_true. intros x Hx.
    rewrite forallb_forall in Hall. apply Hall. by apply list_elem_of_In.
Qed.

(** Stage 1 on two files with distinct variable names, when they share a
    variable, passes exactly when both files have the same variable names. *)
Theorem names_stage_pass_iff_same_names b n q s :
  NoDup (ds_vars b) -> NoDup (ds_vars n) ->
  common_vars (init b n) <> [] ->
  compare_variable_names b n q (init b n) = inr (tt, s) ->
  exists r, test_results s = [("Compare Variable Names", r)] /\
    (pass r = true <-> ds_vars b ≡ₚ ds_vars n).
Proof.
  intros Hb Hn Hne H.
  destruct (stage1_run _ _ _ _ _ H) as (_ & _ & H1).
  destruct (H1 Hne) as (r & Er & Ep & _). exists r. split; [exact Er|].
  rewrite Ep. unfold init; cbn [common_vars].
  rewrite andb_true_iff, !Nat.eqb_eq.
  pose proof (filter_length_split (fun v => mem v (ds_vars n)) (ds_vars b)) as Hs.
  split.
  - intros [Hl Hf].
    assert (Hneg : List.filter (fun v => negb (mem v (ds_vars n))) (ds_vars b) = []).
    { apply length_zero_iff_nil. lia. }
    destruct (filter_negb_nil _ _ Hneg) as [_ Hall].
    assert (Hinc : incl (ds_vars b) (ds_vars n)).
    { intros x Hx. apply list_elem_of_In. apply mem_spec.
      rewrite forallb_forall in Hall. by apply Hall. }
    apply NoDup_Permutation; [done|done|].
    intros x. rewrite !list_elem_of_In. split; [apply Hinc|].
    apply NoDup_length_incl; [by apply NoDup_ListNoDup | lia | done].
  - intros Hp. split; [by apply Permutation_length|].
    rewrite filter_all_true; [done|].
    intros x Hx. apply mem_spec. by rewrite <- Hp.
Qed.

Lemma names_stage_pass_iff_same_names_witness :
  exists s, compare_variable_names ds_A_base ds_A_new true (init ds_A_base ds_A_new) = inr (tt, s) /\
  exists r, test_results s = [("Compare Variable Names", r)] /\
    (pass r = true <-> ds_vars ds_A_base ≡ₚ ds_vars ds_A_new).
Proof.
  destruct (compare_variable_names ds_A_base ds_A_new true (init ds_A_base ds_A_new))
    as [e|[[] s]] eqn:E; [vm_compute in E; discriminate|].
  exists s. split; [done|].
  apply (names_stage_pass_iff_same_names _ _ true s); [decide_closed | decide_closed | vm_compute; discriminate | exact E].
Defined.

(** Stage 2 passes exactly when it keeps the whole working set; when it
    fails, its ["fail_msg"] is "k/m pass" with k the variables kept and m
    the variables checked. *)
Theorem type_dims_stage_result b n q s s' :
  NoDup (common_vars s) -> common_vars s <> [] ->
  compare_variable_type_and_dims b n q s = inr (tt, s') ->
  exists r, test_results s' = test_results s ++ [("Compare Variable Types and Dimensions", r)] /\
    (pass r = true <-> common_vars s' = common_vars s) /\
    fail_msg r = if pass r then None
                 else Some (pass_msg (length (common_vars s')) (length (common_vars s))).
Proof.
  intros Hnd Hne H.
  destruct (stage2_result _ _ _ _ _ H Hnd Hne) as (r & Er & Ef).
  destruct (stage2_run _ _ _ _ _ H Hnd) as [_ H1].
  destruct (H1 Hne) as (_ & Ec & _ & r' & Er' & Ep).
  rewrite Er in Er'. apply app_inv_head in Er'. injection Er' as <-.
  exists r. split; [done|]. split; [|done].
  rewrite Ep, Ec. symmetry. apply filter_id_iff.
Qed.

Lemma type_dims_stage_result_witness :
  exists s', compare_variable_type_and_dims ds_B_base ds_B_new false (init ds_B_base ds_B_new) = inr (tt, s') /\
  exists r, test_results s' = test_results (init ds_B_base ds_B_new) ++
                              [("Compare Variable Types and Dimensions", r)] /\
    (pass r = true <-> common_vars s' = common_vars (init ds_B_base ds_B_new)) /\
    fail_msg r = if pass r then None
                 else Some (pass_msg (length (common_vars s')) (length (common_vars (init ds_B_base ds_B_new)))).
Proof.
  destruct (compare_variable_type_and_dims ds_B_base ds_B_new false (init ds_B_base ds_B_new))
    as [e|[[] s']] eqn:E; [vm_compute in E; discriminate|].
  exists s'. split; [done|].
  apply (type_dims_stage_result ds_B_base ds_B_new false); [decide_closed | vm_compute; discriminate | exact E].
Defined.

Lemma in_both_assoc b n v :
  in_both b n v -> exists bv nv, assoc v b = Some bv /\ assoc v n = Some nv.
Proof. intros [[bv Hb] [nv Hn]]. eauto. Qed.

(** Stage 3 keeps the working set; on a non-empty one it passes exactly
    when every variable has equal attribute dicts on both sides, and when
    it fails its ["fail_msg"] is "k/m pass" with k the variables whose
    attributes match. *)
Theorem metadata_stage_result b n q s s' :
  compare_metadata b n q s = inr (tt, s') ->
  common_vars s' = common_vars s /\
  (common_vars s = [] -> test_results s' = test_results s) /\
  (common_vars s <> [] -> exists r,
     test_results s' = test_results s ++ [("Compare Metadata", r)] /\
     (pass r = true <-> forall v bv nv, v ∈ common_vars s -> assoc v b = Some bv ->
                         assoc v n = Some nv -> dict_eqb attr_eqb (attrs bv) (attrs nv) = true) /\
     fail_msg r = if pass r then None
       else Some (pass_msg (length (List.filter (fun v => negb (attr_diff b n v)) (common_vars s)))
                           (length (common_vars s)))).
Proof.
  intros H. destruct (stage3_run _ _ _ _ _ H) as (Ec & E0 & H1).
  split; [done|]. split; [done|]. intros Hne.
  destruct (H1 Hne) as (Hin & r & Er & Ep & Ef). exists r. split; [done|].
  split.
  - rewrite Ep, Nat.eqb_eq, length_zero_iff_nil, filter_nil_iff. split.
    + intros Hall v bv nv Hv Hb Hn. specialize (Hall v Hv).
      unfold attr_diff, attrs_neqb in Hall. rewrite Hb, Hn in Hall.
      by apply negb_false_iff.
    + intros Hall v Hv. destruct (in_both_assoc _ _ _ (Hin v Hv)) as (bv & nv & Hb & Hn).
      unfold attr_diff, attrs_neqb. rewrite Hb, Hn. apply negb_false_iff. eauto.
  - rewrite Ef. destruct (pass r); [done|]. do 3 f_equal.
    pose proof (filter_length_split (attr_diff b n) (common_vars s)). lia.
Qed.

Lemma metadata_stage_result_witness :
  exists s', compare_metadata ds_A_base ds_A_new true (init ds_A_base ds_A_new) = inr (tt, s') /\
  common_vars s' = common_vars (init ds_A_base ds_A_new).
Proof.
  destruct (compare_metadata ds_A_base ds_A_new true (init ds_A_base ds_A_new))
    as [e|[[] s']] eqn:E; [vm_compute in E; discriminate|].
  exists s'. split; [done|].
  exact (proj1 (metadata_stage_result _ _ _ _ _ E)).
Defined.



(** ** [init_logging] *)

(** With the handlers of [init_logging], a record below INFO is dropped, an
    INFO record goes to stdout as the bare message, and a WARNING or ERROR
    record goes to stderr only, prefixed by its level name. *)
Theorem emit_routing levelno levelname message :
  emit levelno levelname message =
  if Nat.ltb levelno INFO then []
  else if Nat.ltb levelno WARNING then [(Stdout, message)]
  else [(Stderr, levelname +:+ ": " +:+ message)].
Proof.
  unfold emit, root_level.
  destruct (Nat.ltb levelno INFO) eqn:E1; [done|].
  unfold root_handlers, logging_out, logging_err, MaxLevelFilter.
  cbn -[Nat.leb Nat.ltb DEBUG WARNING].
  destruct (Nat.leb DEBUG levelno) eqn:E2, (Nat.ltb levelno WARNING) eqn:E3,
    (Nat.leb WARNING levelno) eqn:E4; cbn -[Nat.leb Nat.ltb DEBUG WARNING];
    rewrite ?Nat.leb_le, ?Nat.leb_gt, ?Nat.ltb_lt, ?Nat.ltb_ge in *;
    unfold DEBUG, INFO, WARNING in *; try lia; done.
Qed.

(** ** The results of a run and the exit status *)

(** The names under which the four stages store their results. *)
Definition stage_names : list string :=
  ["Compare Variable Names"; "Compare Variable Types and Dimensions";
   "Compare Metadata"; "Compare Values"].

(** A stage stores nothing, or one result under [d]. *)
Definition adds_result (d : string) (s s' : St) : Prop :=
  test_results s' = test_results s \/ exists r, test_results s' = test_results s ++ [(d, r)].

Lemma sublist_adds d s s' L :
  map fst (test_results s) `sublist_of` L -> adds_result d s s' ->
  map fst (test_results s') `sublist_of` L ++ [d].
Proof.
  intros H [-> | [r ->]].
  - by apply sublist_inserts_r.
  - rewrite map_app. by apply sublist_app.
Qed.

Lemma stage1_adds b n q s s' :
  compare_variable_names b n q s = inr (tt, s') -> adds_result "Compare Variable Names" s s'.
Proof.
  intros H. destruct (stage1_run _ _ _ _ _ H) as (_ & H0 & H1).
  destruct (decide (common_vars s = [])) as [E|E]; [left; auto|].
  right. destruct (H1 E) as (r & Er & _). eauto.
Qed.

Lemma stage2_adds b n q s s' :
  NoDup (common_vars s) -> compare_variable_type_and_dims b n q s = inr (tt, s') ->
  adds_result "Compare Variable Types and Dimensions" s s'.
Proof.
  intros Hnd H. destruct (stage2_run _ _ _ _ _ H Hnd) as [H0 H1].
  destruct (decide (common_vars s = [])) as [E|E]; [left; by rewrite (H0 E)|].
  right. destruct (H1 E) as (_ & _ & _ & r & Er & _). eauto.
Qed.

Lemma stage3_adds b n q s s' :
  compare_metadata b n q s = inr (tt, s') -> adds_result "Compare Metadata" s s'.
Proof.
  intros H. destruct (stage3_run _ _ _ _ _ H) as (_ & H0 & H1).
  destruct (decide (common_vars s = [])) as [E|E]; [left; auto|].
  right. destruct (H1 E) as (_ & r & Er & _). eauto.
Qed.

Lemma stage4_adds b n q s s' :
  compare_values b n q s = inr (tt, s') -> adds_result "Compare Values" s s'.
Proof.
  intros H. destruct (stage4_result _ _ _ _ _ H) as [H0 H1].
  destruct (decide (common_vars s = [])) as [E|E]; [left; auto|].
  right. destruct (H1 E) as (r & Er & _). eauto.
Qed.

Lemma run_shape b n q k s :
  NoDup (ds_vars b) -> run b n q = inr (k, s) ->
  map fst (test_results s) `sublist_of` stage_names /\
  Forall good_result (test_results s) /\
  k = length (List.filter (fun p => negb (pass p.2)) (test_results s)) /\ k <= 4.
Proof.
  intros Hnd H. destruct (run_inv _ _ _ _ _ H) as (s1 & s2 & s3 & s4 & H1 & H2 & H3 & H4 & H5).
  unfold parse_results in H5. rewrite bind_get in H5.
  apply parse_loop_run in H5 as (Hk & lines & _ & ->).
  unfold with_logs in *; cbn [test_results] in *.
  pose proof (run_good _ _ _ _ _ _ _ H1 H2 H3 H4) as Hg.
  destruct (stage1_run _ _ _ _ _ H1) as [E1 _].
  assert (Hnd1 : NoDup (common_vars s1)) by (rewrite E1; by apply init_nodup).
  assert (Hs : map fst (test_results s4) `sublist_of` stage_names).
  { unfold stage_names.
    refine (sublist_adds "Compare Values" s3 s4
              ["Compare Variable Names"; "Compare Variable Types and Dimensions"; "Compare Metadata"]
              _ (stage4_adds _ _ _ _ _ H4)).
    refine (sublist_adds "Compare Metadata" s2 s3
              ["Compare Variable Names"; "Compare Variable Types and Dimensions"]
              _ (stage3_adds _ _ _ _ _ H3)).
    refine (sublist_adds "Compare Variable Types and Dimensions" s1 s2
              ["Compare Variable Names"] _ (stage2_adds _ _ _ _ _ Hnd1 H2)).
    refine (sublist_adds "Compare Variable Names" (init b n) s1 [] _ (stage1_adds _ _ _ _ _ H1)).
    constructor. }
  split; [done|]. split; [done|]. split; [done|].
  apply sublist_length in Hs. rewrite length_map in Hs. cbn in Hs.
  rewrite Hk. transitivity (length (test_results s4)); [|exact Hs].
  clear. induction (test_results s4) as [|x l IH]; cbn; [lia|].
  destruct (negb _); cbn; lia.
Qed.

(** In a completed run on a baseline with distinct variable names, the
    stored results follow the order of the four stages, each at most once;
    in quiet mode each failing one carries a ["fail_msg"]; and the exit
    count is the number of failing results, at most 4. *)
Theorem run_results_in_stage_order b n q k s :
  NoDup (ds_vars b) -> run b n q = inr (k, s) ->
  map fst (test_results s) `sublist_of` stage_names /\
  Forall good_result (test_results s) /\
  k = length (List.filter (fun p => negb (pass p.2)) (test_results s)) /\ k <= 4.
Proof. apply run_shape. Qed.

Lemma run_results_in_stage_order_witness :
  exists k s, run ds_B_base ds_B_new false = inr (k, s) /\
  map fst (test_results s) `sublist_of` stage_names /\
  Forall good_result (test_results s) /\
  k = length (List.filter (fun p => negb (pass p.2)) (test_results s)) /\ k <= 4.
Proof.
  destruct (run ds_B_base ds_B_new false) as [e|[k s]] eqn:E; [vm_compute in E; discriminate|].
  exists k, s. split; [done|].
  exact (run_results_in_stage_order ds_B_base ds_B_new false k s ltac:(decide_closed) E).
Defined.

(** The exit status of the script is at most 4 when the baseline's
    variable names are distinct; a missing file gives 1. *)
Theorem main_exit_status_bound ob on q :
  (forall b, ob = Some b -> NoDup (ds_vars b)) ->
  main ob on q <= 4 /\ (ob = None \/ on = None -> main ob on q = 1).
Proof.
  intros Hb. split.
  - destruct ob as [b|]; [|cbn; lia]. destruct on as [n|]; [|cbn; lia].
    cbn. unfold exit_status. destruct (run b n q) as [e|[k s]] eqn:E; [lia|].
    exact (proj2 (proj2 (proj2 (run_shape _ _ _ _ _ (Hb b eq_refl) E)))).
  - intros [-> | ->]; [done|]. by destruct ob.
Qed.

Lemma main_exit_status_bound_witness :
  main (Some ds_F_base) (Some ds_F_new) false <= 4 /\
  (Some ds_F_base = None \/ Some ds_F_new = None -> main (Some ds_F_base) (Some ds_F_new) false = 1).
Proof.
  apply main_exit_status_bound. intros b Hb. injection Hb as <-. decide_closed.
Defined.

(** ** [get_metadata_differences] *)

(** [common_attrs] of [get_metadata_differences]. *)
Definition common_keys (ba na : list (string * attr_val)) : list string :=
  List.filter (fun k => mem k (map fst na)) (map fst ba).

(** The line the third loop of [get_metadata_differences] logs for [k]. *)
Definition attr_value_msgs (ba na : list (string * attr_val)) (k : string) : list msg :=
  match assoc k ba, assoc k na with
  | Some x, Some y => if attr_eqb x y then [] else [MsgAttrValue k x y]
  | _, _ => []
  end.

Lemma info_with_logs m s : info m s = inr (tt, with_logs s [m]).
Proof. reflexivity. Qed.

Lemma ret_tt_step s : @ret unit tt s = inr (tt, s).
Proof. reflexivity. Qed.

Lemma mapM_info {A} (f : A -> msg) l s :
  mapM_ (fun k => info (f k)) l s = inr (tt, with_logs s (map f l)).
Proof.
  revert s. induction l as [|x l IH]; intros s; cbn [mapM_ map].
  - by rewrite with_logs_nil.
  - rewrite (bind_step _ _ _ _ _ (info_with_logs (f x) s)), IH, with_logs_app. done.
Qed.

Lemma elem_of_common_keys ba na k :
  k ∈ common_keys ba na <-> k ∈ map fst ba /\ k ∈ map fst na.
Proof. unfold common_keys. rewrite elem_of_filter_In, mem_spec. done. Qed.

Lemma key_assoc {A} k (d : list (string * A)) : k ∈ map fst d -> exists x, assoc k d = Some x.
Proof. rewrite elem_of_keys_assoc. destruct (assoc k d); [eauto | done]. Qed.

Lemma concat_map_nil {A B} (g : A -> list B) l :
  concat (map g l) = [] <-> forall x, x ∈ l -> g x = [].
Proof.
  induction l as [|x l IH]; cbn [map concat].
  - split; [intros _ y Hy; inversion Hy | done].
  - split.
    + intros H. apply app_eq_nil in H as [H1 H2]. intros y Hy.
      apply elem_of_cons in Hy as [->|Hy]; [done|]. by apply IH.
    + intros H. rewrite (H x ltac:(set_solver)). cbn. apply IH.
      intros y Hy. apply H. set_solver.
Qed.

Lemma attr_values_loop ba na l s :
  (forall k, k ∈ l -> k ∈ common_keys ba na) ->
  mapM_ (fun k => match assoc k ba, assoc k na with
                  | Some x, Some y => when (negb (attr_eqb x y)) (info (MsgAttrValue k x y))
                  | _, _ => raise KeyError
                  end) l s
  = inr (tt, with_logs s (concat (map (attr_value_msgs ba na) l))).
Proof.
  revert s. induction l as [|k l IH]; intros s Hin; cbn [mapM_ map concat].
  - by rewrite with_logs_nil.
  - destruct (proj1 (elem_of_common_keys _ _ _) (Hin k ltac:(set_solver))) as [Hb Hn].
    destruct (key_assoc _ _ Hb) as [x Hx]. destruct (key_assoc _ _ Hn) as [y Hy].
    cbv beta. unfold attr_value_msgs at 1. rewrite Hx, Hy.
    destruct (attr_eqb x y); cbn [negb when].
    + rewrite (bind_step _ _ _ _ _ (ret_tt_step s)), IH by set_solver. done.
    + rewrite (bind_step _ _ _ _ _ (info_with_logs _ s)), IH by set_solver.
      by rewrite with_logs_app.
Qed.

Lemma get_metadata_differences_log ba na s :
  get_metadata_differences ba na s =
  inr (tt, with_logs s
    ((if negb (Nat.eqb (length ba) (length na)) ||
         negb (Nat.eqb (length ba) (length (common_keys ba na)))
      then map MsgAttrNotInNew
             (List.filter (fun k => negb (mem k (common_keys ba na))) (map fst ba)) ++
           map MsgAttrNotInBaseline
             (List.filter (fun k => negb (mem k (common_keys ba na))) (map fst na))
      else []) ++ concat (map (attr_value_msgs ba na) (common_keys ba na)))).
Proof.
  unfold get_metadata_differences. cbv zeta.
  change (List.filter (fun k => mem k (map fst na)) (map fst ba)) with (common_keys ba na).
  destruct (_ || _); cbn [when].
  - assert (HW : (mapM_ (fun k => info (MsgAttrNotInNew k))
                    (List.filter (fun k => negb (mem k (common_keys ba na))) (map fst ba));;
                  mapM_ (fun k => info (MsgAttrNotInBaseline k))
                    (List.filter (fun k => negb (mem k (common_keys ba na))) (map fst na))) s =
                 inr (tt, with_logs s
                   (map MsgAttrNotInNew
                      (List.filter (fun k => negb (mem k (common_keys ba na))) (map fst ba)) ++
                    map MsgAttrNotInBaseline
                      (List.filter (fun k => negb (mem k (common_keys ba na))) (map fst na))))).
    { rewrite (bind_step _ _ _ _ _ (mapM_info MsgAttrNotInNew _ s)), mapM_info.
      by rewrite with_logs_app. }
    rewrite (bind_step _ _ _ _ _ HW), attr_values_loop by done.
    by rewrite with_logs_app.
  - rewrite (bind_step _ _ _ _ _ (ret_tt_step s)), attr_values_loop by done. done.
Qed.



(** ** The numbers [get_value_differences] prints *)

Lemma fold_left_Qmax_ge (l : list Q) (acc : Q) :
  (acc <= fold_left Qmax l acc)%Q /\ (forall y, In y l -> (y <= fold_left Qmax l acc)%Q).
Proof.
  revert acc. induction l as [|x l IH]; intros acc; cbn.
  - split; [apply Qle_refl | done].
  - destruct (IH (Qmax acc x)) as [H1 H2]. split.
    + eapply Qle_trans; [apply Q.le_max_l | exact H1].
    + intros y [<-|Hy]; [|auto]. eapply Qle_trans; [apply Q.le_max_r | exact H1].
Qed.

Lemma qmax_list_ge (l : list Q) y : In y l -> (y <= qmax_list l)%Q.
Proof.
  destruct l as [|x l]; [done|]. intros [<-|Hy]; cbn.
  - apply (proj1 (fold_left_Qmax_ge l x)).
  - by apply (proj2 (fold_left_Qmax_ge l x)).
Qed.

Lemma Qabs_pos_neq (x : Q) : ~ (x == 0)%Q -> (0 < Qabs x)%Q.
Proof.
  intros Hx. destruct (Q_dec x 0) as [[H|H]|H].
  - rewrite Qabs_neg by lra. lra.
  - rewrite Qabs_pos by lra. lra.
  - contradiction.
Qed.



(** ** [masks_differ] when the NaN counts agree *)

Lemma argwhere_from_ge i l j : j ∈ argwhere_from i l -> i <= j.
Proof.
  revert i. induction l as [|x l IH]; intros i Hj; cbn in Hj; [inversion Hj|].
  destruct x; [apply elem_of_cons in Hj as [->|Hj]; [lia|]|];
    apply IH in Hj; lia.
Qed.

Lemma argwhere_from_inj i l1 l2 :
  length l1 = length l2 -> argwhere_from i l1 = argwhere_from i l2 -> l1 = l2.
Proof.
  revert i l2. induction l1 as [|x l1 IH]; intros i [|y l2] Hl H; cbn in *; try done.
  assert (Hs : forall l, ~ i ∈ argwhere_from (S i) l)
    by (intros l Hi; apply argwhere_from_ge in Hi; lia).
  destruct x, y.
  - injection H as H. f_equal. eapply IH; [lia | exact H].
  - exfalso. apply (Hs l2). rewrite <- H. left.
  - exfalso. apply (Hs l1). rewrite H. left.
  - f_equal. eapply IH; [lia | exact H].
Qed.

Lemma existsb_zip_ne (xs ys : list nat) :
  length xs = length ys ->
  existsb id (zip_with (fun x y => negb (Nat.eqb x y)) xs ys) = negb (bool_decide (xs = ys)).
Proof.
  revert ys. induction xs as [|x xs IH]; intros [|y ys] Hl; cbn in *; try done.
  rewrite IH by lia. destruct (Nat.eqb x y) eqn:E; cbn.
  - apply Nat.eqb_eq in E as ->. destruct (bool_decide (xs = ys)) eqn:F.
    + apply bool_decide_eq_true in F as ->. by rewrite bool_decide_eq_true_2.
    + apply bool_decide_eq_false in F. rewrite bool_decide_eq_false_2; [done|].
      intros G. injection G. done.
  - apply Nat.eqb_neq in E. rewrite bool_decide_eq_false_2; [done|].
    intros G. injection G. done.
Qed.

(** On two variables of the same shape with as many NaNs on each side, the
    mask check of [get_value_differences] does not raise and reports a
    difference exactly when the NaN masks differ.  (With equal shapes the
    rows of [np.argwhere] are in the C order of the flattened positions,
    so comparing rows is comparing flat positions.) *)
Theorem masks_differ_equal_counts (bv nv : DataArray) :
  shape bv = shape nv ->
  length (data bv) = length (data nv) ->
  length (argwhere (map isnan (data bv))) = length (argwhere (map isnan (data nv))) ->
  masks_differ (data bv) (data nv) =
    Some (negb (bool_decide (map isnan (data bv) = map isnan (data nv)))).
Proof.
  intros _. generalize (data bv) (data nv). clear bv nv. intros b n.
  intros Hl Hc. unfold masks_differ, ne_broadcast.
  rewrite (proj2 (Nat.eqb_eq _ _) Hc). cbn [option_map].
  rewrite existsb_zip_ne by done. do 2 f_equal.
  apply bool_decide_ext. split; [|by intros ->].
  apply argwhere_from_inj. by rewrite !length_map.
Qed.

Lemma masks_differ_equal_counts_witness :
  masks_differ [None; Some 2; Some 3]%Q [Some 1; None; Some 3]%Q =
  Some (negb (bool_decide (map isnan [None; Some 2; Some 3]%Q = map isnan [Some 1; None; Some 3]%Q))).
Proof.
  exact (masks_differ_equal_counts (v1d "float64" "x" [None; Some 2; Some 3]%Q)
           (v1d "float64" "x" [Some 1; None; Some 3]%Q) eq_refl eq_refl eq_refl).
Defined.

(** ** Comparing a file with itself *)

(** The conditions under which a variable compares equal to itself: its
    dimension names and attribute names are distinct, and no attribute is
    a NaN number. *)
Definition var_ok (x : DataArray) : Prop :=
  NoDup (dim_names x) /\ NoDup (map fst (attrs x)) /\
  Forall (fun a => a.2 <> AttrNum None) (attrs x).

Lemma dict_eqb_refl {A} (eqb : A -> A -> bool) (d : list (string * A)) :
  NoDup (map fst d) -> (forall k x, (k, x) ∈ d -> eqb x x = true) -> dict_eqb eqb d d = true.
Proof.
  intros Hnd Hx. unfold dict_eqb. rewrite Nat.eqb_refl. cbn.
  apply forallb_forall. intros [k x] Hk. apply list_elem_of_In in Hk.
  rewrite (assoc_In_NoDup _ _ _ Hnd Hk). eauto.
Qed.

Lemma attr_eqb_refl a : a <> AttrNum None -> attr_eqb a a = true.
Proof.
  destruct a as [t|[x|]]; cbn; intros H.
  - apply String.eqb_refl.
  - apply Qeq_bool_refl.
  - done.
Qed.



Section SelfCompare.
Variable b : Dataset.
Hypothesis Hok : Forall (fun p => var_ok p.2) b.

Lemma self_var_ok v x : assoc v b = Some x -> var_ok x.
Proof.
  intros Hx. apply assoc_Some_In in Hx. rewrite Forall_forall in Hok. exact (Hok _ Hx).
Qed.

Lemma self_keep v : keep_var b b v = true.
Proof.
  unfold keep_var. destruct (assoc v b) as [x|] eqn:Hx; [|done].
  destruct (self_var_ok v x Hx) as (Hd & _ & _).
  unfold td_keep, sizes_eqb. rewrite String.eqb_refl, Nat.eqb_refl. cbn.
  apply dict_eqb_refl; [exact Hd|]. intros. apply Nat.eqb_refl.
Qed.

Lemma self_attr_diff v : attr_diff b b v = false.
Proof.
  unfold attr_diff. destruct (assoc v b) as [x|] eqn:Hx; [|done].
  destruct (self_var_ok v x Hx) as (_ & Ha & Hn).
  unfold attrs_neqb. apply negb_false_iff. apply dict_eqb_refl; [exact Ha|].
  intros k a Hka. apply attr_eqb_refl. rewrite Forall_forall in Hn. exact (Hn _ Hka).
Qed.

Lemma self_eq_var v : eq_var b b v = true.
Proof. unfold eq_var. destruct (assoc v b); [apply da_equals_refl | done]. Qed.

End SelfCompare.

Lemma init_self b : common_vars (init b b) = ds_vars b.
Proof. unfold init; cbn. apply filter_all_true. intros v Hv. by apply mem_spec. Qed.

(** A stage stores nothing, or one passing result. *)
Definition adds_pass (s s' : St) : Prop :=
  test_results s' = test_results s \/
  exists d r, test_results s' = test_results s ++ [(d, r)] /\ pass r = true.

Lemma adds_pass_forall s s' :
  Forall (fun p => pass p.2 = true) (test_results s) -> adds_pass s s' ->
  Forall (fun p => pass p.2 = true) (test_results s').
Proof.
  intros H [-> | (d & r & -> & Hr)]; [done|].
  apply Forall_app. split; [done|]. by apply Forall_singleton.
Qed.



(** ** The lines Stage 2 logs *)

(** The variable a Stage 2 line is about. *)
Definition td_msg_var (m : msg) : option string :=
  match m with
  | MsgDtype v _ _ | MsgNdim v _ _ | MsgSize v _ _ => Some v
  | _ => None
  end.

Lemma var_msgs_one b n v :
  map td_msg_var (var_msgs b n v) = if keep_var b n v then [] else [Some v].
Proof.
  unfold var_msgs, keep_var. destruct (assoc v b), (assoc v n); try done.
  unfold td_msgs, td_keep.
  destruct (String.eqb _ _), (Nat.eqb _ _), (sizes_eqb _ _); done.
Qed.

Lemma var_msgs_concat b n vs :
  map td_msg_var (concat (map (var_msgs b n) vs)) =
  map Some (List.filter (fun v => negb (keep_var b n v)) vs).
Proof.
  induction vs as [|v vs IH]; [done|]. cbn [map concat List.filter].
  rewrite map_app, IH, var_msgs_one. by destruct (keep_var b n v).
Qed.

(** In verbose mode Stage 2 logs one line per variable it drops from the
    working set, naming it (its dtype, ndim or size line), in the order of
    the working set, and nothing else; in quiet mode it logs nothing. *)
Theorem type_dims_stage_log b n q s s' :
  NoDup (common_vars s) -> common_vars s <> [] ->
  compare_variable_type_and_dims b n q s = inr (tt, s') ->
  exists L, logs s' = logs s ++ L /\
    (q = true -> L = []) /\
    (q = false -> map td_msg_var L =
       map Some (List.filter (fun v => negb (mem v (common_vars s'))) (common_vars s))).
Proof.
  intros Hnd Hne H. destruct (stage2_run _ _ _ _ _ H Hnd) as [_ H1].
  destruct (H1 Hne) as (_ & Ec & El & _).
  eexists. split; [exact El|]. split; [by intros ->|]. intros ->.
  rewrite var_msgs_concat, Ec. f_equal.
  apply filter_ext_in. intros v Hv. apply list_elem_of_In in Hv. f_equal.
  destruct (keep_var b n v) eqn:Ek.
  - symmetry. apply mem_spec, elem_of_filter_In. done.
  - symmetry. apply mem_false. intros Hin. apply elem_of_filter_In in Hin as [_ Hk]. congruence.
Qed.

Lemma type_dims_stage_log_witness :
  exists s', compare_variable_type_and_dims ds_B_base ds_B_new false (init ds_B_base ds_B_new) = inr (tt, s') /\
  exists L, logs s' = logs (init ds_B_base ds_B_new) ++ L /\
    (false = true -> L = []) /\
    (false = false -> map td_msg_var L =
       map Some (List.filter (fun v => negb (mem v (common_vars s'))) (common_vars (init ds_B_base ds_B_new)))).
Proof.
  destruct (compare_variable_type_and_dims ds_B_base ds_B_new false (init ds_B_base ds_B_new))
    as [e|[[] s']] eqn:E; [vm_compute in E; discriminate|].
  exists s'. split; [done|].
  apply (type_dims_stage_log ds_B_base ds_B_new false); [decide_closed | vm_compute; discriminate | exact E].
Defined.

(** ** The log of a quiet run *)

(** The lines a quiet run may log. *)
Definition quiet_msg (m : msg) : Prop :=
  match m with
  | MsgNoVars _ | MsgSummaryHeader | MsgSummary _ _ => True
  | _ => False
  end.

(** Computations that only append [quiet_msg] lines to the log. *)
Definition LogsQuiet {A} (c : M A) : Prop :=
  forall s x s', c s = inr (x, s') -> exists L, logs s' = logs s ++ L /\ Forall quiet_msg L.

Lemma LogsQuiet_ret {A} (x : A) : LogsQuiet (ret x).
Proof. intros s y s' H. injection H as _ <-. exists []. by rewrite app_nil_r. Qed.

Lemma LogsQuiet_raise {A} e : LogsQuiet (@raise A e).
Proof. intros s y s' H. discriminate. Qed.

Lemma LogsQuiet_get : LogsQuiet get.
Proof. intros s y s' H. injection H as _ <-. exists []. by rewrite app_nil_r. Qed.

Lemma LogsQuiet_info m : quiet_msg m -> LogsQuiet (info m).
Proof. intros Hm s y s' H. injection H as _ <-. exists [m]. split; [done|]. by constructor. Qed.

Lemma LogsQuiet_store d r : LogsQuiet (store_result d r).
Proof. intros s y s' H. injection H as _ <-. exists []. by rewrite app_nil_r. Qed.

Lemma LogsQuiet_ds_get ds v : LogsQuiet (ds_get ds v).
Proof. unfold ds_get. destruct (assoc v ds); [apply LogsQuiet_ret | apply LogsQuiet_raise]. Qed.

Lemma LogsQuiet_py_remove x : LogsQuiet (py_remove x).
Proof.
  intros s y s' H. unfold py_remove in H. rewrite bind_get in H.
  destruct (list_remove x (common_vars s)); [|discriminate].
  injection H as _ <-. exists []. by rewrite app_nil_r.
Qed.

Lemma LogsQuiet_bind {A B} (c : M A) (f : A -> M B) :
  LogsQuiet c -> (forall x, LogsQuiet (f x)) -> LogsQuiet (bind c f).
Proof.
  intros Hc Hf s y s' H. apply bind_inr in H as (x & s1 & H1 & H2).
  destruct (Hc _ _ _ H1) as (L1 & E1 & F1). destruct (Hf _ _ _ _ H2) as (L2 & E2 & F2).
  exists (L1 ++ L2). rewrite E2, E1, app_assoc. split; [done|]. by apply Forall_app.
Qed.

Lemma LogsQuiet_when_false c : LogsQuiet (when false c).
Proof. apply LogsQuiet_ret. Qed.

Lemma LogsQuiet_mapM_ {A} (f : A -> M unit) l :
  (forall x, LogsQuiet (f x)) -> LogsQuiet (mapM_ f l).
Proof.
  intros Hf. induction l as [|x l IH]; simpl; [apply LogsQuiet_ret|].
  by apply LogsQuiet_bind.
Qed.

Create HintDb quietlog.
#[local] Hint Resolve LogsQuiet_ret LogsQuiet_raise LogsQuiet_get LogsQuiet_store
  LogsQuiet_ds_get LogsQuiet_py_remove : quietlog.
#[local] Hint Extern 1 (LogsQuiet (info _)) => apply LogsQuiet_info; exact I : quietlog.

Ltac quietlog :=
  repeat first
    [ progress eauto with quietlog
    | apply LogsQuiet_bind; [| intros ?]
    | apply LogsQuiet_mapM_; intros ?
    | match goal with
      | |- LogsQuiet (when false _) => apply LogsQuiet_when_false
      | |- LogsQuiet (when (negb true) _) => apply LogsQuiet_when_false
      | |- LogsQuiet (match ?x with _ => _ end) => destruct x
      | |- LogsQuiet (if ?x then _ else _) => destruct x
      end ].

Lemma LogsQuiet_check_type_and_dims b n v : LogsQuiet (check_type_and_dims b n true v).
Proof.
  intros s x s' H. apply check_run in H as (_ & _ & ->).
  exists []. split; [reflexivity | constructor].
Qed.
#[local] Hint Resolve LogsQuiet_check_type_and_dims : quietlog.

Lemma LogsQuiet_type_dims_loop b n vs : LogsQuiet (type_dims_loop b n true vs).
Proof. induction vs; simpl; quietlog. Qed.
#[local] Hint Resolve LogsQuiet_type_dims_loop : quietlog.

Lemma LogsQuiet_metadata_loop b n vs : LogsQuiet (metadata_loop b n true vs).
Proof. induction vs; simpl; quietlog. Qed.
#[local] Hint Resolve LogsQuiet_metadata_loop : quietlog.

Lemma LogsQuiet_values_loop b n vs : LogsQuiet (values_loop b n true vs).
Proof. induction vs; simpl; quietlog. Qed.
#[local] Hint Resolve LogsQuiet_values_loop : quietlog.

Lemma LogsQuiet_parse_loop i rs : LogsQuiet (parse_loop true i rs).
Proof. revert i. induction rs as [|[d r] rs IH]; intros i; simpl; quietlog. Qed.
#[local] Hint Resolve LogsQuiet_parse_loop : quietlog.

Lemma LogsQuiet_main_body b n : LogsQuiet (main_body b n true).
Proof.
  unfold main_body, compare_variable_names, compare_variable_type_and_dims,
    compare_metadata, compare_values, parse_results.
  cbv zeta. quietlog.
Qed.

(** After the header lines that [__init__] logs in every mode, a quiet run
    logs nothing but "no variables to test" notices, the summary header and
    the numbered summary lines: from any state, the quiet stages and
    summary only append such lines to the log. *)
Theorem quiet_run_log b n s k s' :
  main_body b n true s = inr (k, s') ->
  exists L, logs s' = logs s ++ L /\ Forall quiet_msg L.
Proof.
  intros H. destruct (LogsQuiet_main_body b n _ _ _ H) as (L & E & F).
  exists L. split; [exact E | exact F].
Qed.

Lemma quiet_run_log_witness :
  exists k s', main_body ds_B_base ds_B_new true (init ds_B_base ds_B_new) = inr (k, s') /\
    exists L, logs s' = logs (init ds_B_base ds_B_new) ++ L /\ Forall quiet_msg L.
Proof.
  destruct (main_body ds_B_base ds_B_new true (init ds_B_base ds_B_new)) as [e|[k s']] eqn:E;
    [vm_compute in E; discriminate|].
  exists k, s'. split; [done|]. exact (quiet_run_log _ _ _ _ _ E).
Defined.
